(** * Availability checker: booking, availability listing and schedule sync

    A shallow embedding of the three services of the scheduling core

      - [project/book_appointment_service.py]      ([book_appointment])
      - [project/fetch_availability_service.py]    ([fetch_availability])
      - [project/sync_external_schedule_service.py] ([sync_external_schedule])

    The Prisma tables [Schedule] and [Appointment] are lists of rows, in the
    order in which the database scans them.  Every service runs in a small
    state-and-exception monad over the tables, in which each database call
    is one atomic action that is recorded in a log and that may fail. *)

From Stdlib Require Import ZArith Lia Bool Ascii String.
From stdpp Require Import base list strings gmap.

Local Open Scope string_scope.

(** ** Data model *)

(** Naive [datetime] values are totally ordered; they are represented by
    the number of seconds from a fixed origin. *)
Definition datetime := Z.

(** A row of [prisma.models.Schedule]. *)
Record Schedule := mkSchedule {
  sched_id : string;
  sched_professionalId : string;
  sched_start : datetime;
  sched_end : datetime;
  sched_status : string
}.

(** A row of [prisma.models.Appointment]. *)
Record Appointment := mkAppointment {
  appt_id : string;
  appt_scheduleId : string;
  appt_clientId : string;
  appt_startTime : datetime;
  appt_endTime : datetime
}.

Record Store := mkStore {
  schedules : list Schedule;
  appointments : list Appointment
}.

(** The database calls the services issue. *)
Inductive Op :=
| OpFindFirst
| OpFindMany
| OpCreate (a : Appointment)
| OpUpdate (id status : string).

(** What the services can observe and change: the tables and the log of
    the database calls issued so far (latest last). *)
Record World := mkWorld {
  store : Store;
  log : list Op
}.

(** The conditions under which one call of a service runs: for each
    database call whether it fails (with the text of the exception), and
    the identifier the database gives to a created appointment. *)
Record Env := mkEnv {
  find_first_error : option string;
  find_many_error : option string;
  create_error : option string;
  update_error : option string;
  new_appointment_id : string
}.

Definition healthy (new_id : string) : Env :=
  mkEnv None None None None new_id.

(** ** The monad of the services *)

Inductive Result (A : Type) :=
| Ok (a : A)
| Raise (e : string).
Arguments Ok {A} a.
Arguments Raise {A} e.

Definition M (A : Type) := World -> Result A * World.

Definition ret {A} (a : A) : M A := fun w => (Ok a, w).

Definition raise {A} (e : string) : M A := fun w => (Raise e, w).

Definition bind {A B} (m : M A) (k : A -> M B) : M B :=
  fun w =>
    match m w with
    | (Ok a, w') => k a w'
    | (Raise e, w') => (Raise e, w')
    end.

(** [try: m except Exception as e: h e] *)
Definition try_except {A} (m : M A) (h : string -> M A) : M A :=
  fun w =>
    match m w with
    | (Ok a, w') => (Ok a, w')
    | (Raise e, w') => h e w'
    end.

Definition lift {A} (r : Result A) : M A := fun w => (r, w).

Definition issue (o : Op) : M unit :=
  fun w => (Ok tt, mkWorld (store w) (log w ++ [o])).

Definition get_store : M Store := fun w => (Ok (store w), w).

Definition put_store (s : Store) : M unit :=
  fun w => (Ok tt, mkWorld s (log w)).

Definition fail_if (err : option string) : M unit :=
  match err with
  | Some e => raise e
  | None => ret tt
  end.

Notation "x <- m ;; k" := (bind m (fun x => k))
  (at level 100, m at next level, right associativity).
Notation "m ;;; k" := (bind m (fun _ => k))
  (at level 100, right associativity).

(** ** The database calls *)

(** [Schedule.prisma().find_first(where=...)]: the first row that matches. *)
Definition Schedule_find_first (env : Env) (where_ : Schedule -> bool)
  : M (option Schedule) :=
  issue OpFindFirst ;;;
  fail_if (find_first_error env) ;;;
  s <- get_store ;;
  ret (List.find where_ (schedules s)).

(** [Schedule.prisma().find_many(where=...)]: every row that matches. *)
Definition Schedule_find_many (env : Env) (where_ : Schedule -> bool)
  : M (list Schedule) :=
  issue OpFindMany ;;;
  fail_if (find_many_error env) ;;;
  s <- get_store ;;
  ret (List.filter where_ (schedules s)).

(** [Appointment.prisma().create(data=...)]: a new row, with a new id. *)
Definition Appointment_create (env : Env)
    (scheduleId clientId : string) (startTime endTime : datetime)
  : M Appointment :=
  let a := mkAppointment (new_appointment_id env) scheduleId clientId
             startTime endTime in
  issue (OpCreate a) ;;;
  fail_if (create_error env) ;;;
  s <- get_store ;;
  put_store (mkStore (schedules s) (appointments s ++ [a])) ;;;
  ret a.

Definition set_status (id status : string) (r : Schedule) : Schedule :=
  if String.eqb (sched_id r) id
  then mkSchedule (sched_id r) (sched_professionalId r)
         (sched_start r) (sched_end r) status
  else r.

(** [Schedule.prisma().update(where={"id": id}, data={"status": status})]:
    an unconditional write of the status of the row with that id. *)
Definition Schedule_update (env : Env) (id status : string) : M unit :=
  issue (OpUpdate id status) ;;;
  fail_if (update_error env) ;;;
  s <- get_store ;;
  put_store (mkStore (List.map (set_status id status) (schedules s))
               (appointments s)).

(** ** book_appointment *)

Record BookingResponse := mkBookingResponse {
  bookingId : string;
  professionalId : string;
  clientId : string;
  startTime : string;
  endTime : string;
  status : string;
  details : option string;
  errorMessage : option string
}.

Record BookingRequest := mkBookingRequest {
  req_professionalId : string;
  req_clientId : string;
  req_startTime : string;
  req_endTime : string;
  req_details : option string
}.

(** The [where] clause of the slot lookup of [book_appointment]. *)
Definition covering (professional : string) (start_time end_time : datetime)
    (r : Schedule) : bool :=
  String.eqb (sched_professionalId r) professional
  && String.eqb (sched_status r) "Available"
  && (sched_start r <=? start_time)%Z
  && (sched_end r >=? end_time)%Z.

Definition not_available (q : BookingRequest) : BookingResponse :=
  mkBookingResponse "" (req_professionalId q) (req_clientId q)
    (req_startTime q) (req_endTime q) "Failure" (req_details q)
    (Some "Professional is not available at the requested time.").

Definition booked (q : BookingRequest) (a : Appointment) : BookingResponse :=
  mkBookingResponse (appt_id a) (req_professionalId q) (req_clientId q)
    (req_startTime q) (req_endTime q) "Success" (req_details q) None.

(** The response of the [except Exception as e] clause. *)
Definition failed (q : BookingRequest) (e : string) : BookingResponse :=
  mkBookingResponse "" (req_professionalId q) (req_clientId q)
    (req_startTime q) (req_endTime q) "Failure" None (Some e).

Section Booking.

(** [datetime.fromisoformat]: the parsed value, or the text of the
    [ValueError]. *)
Variable fromisoformat : string -> Result datetime.

(** The body of the [try] block. *)
Definition book_appointment_body (env : Env) (q : BookingRequest)
  : M BookingResponse :=
  start_time <- lift (fromisoformat (req_startTime q)) ;;
  end_time <- lift (fromisoformat (req_endTime q)) ;;
  available_schedule <-
    Schedule_find_first env
      (covering (req_professionalId q) start_time end_time) ;;
  match available_schedule with
  | None => ret (not_available q)
  | Some sch =>
      new_appointment <-
        Appointment_create env (sched_id sch) (req_clientId q)
          start_time end_time ;;
      Schedule_update env (sched_id sch) "Booked" ;;;
      ret (booked q new_appointment)
  end.

Definition book_appointment (env : Env) (q : BookingRequest)
  : M BookingResponse :=
  try_except (book_appointment_body env q) (fun e => ret (failed q e)).

End Booking.

(** *** Two calls in flight

    Each [await] of [book_appointment] hands control back to the event
    loop, so another request can run between two database calls of one
    request.  A [Task] is a call of [book_appointment] stopped at such a
    point; [step] runs it up to the next one. *)

Inductive Task :=
| Pending (q : BookingRequest)
| AwaitCreate (q : BookingRequest) (start_time end_time : datetime)
    (sch : Schedule)
| AwaitUpdate (q : BookingRequest) (new_appointment : Appointment)
    (sch : Schedule)
| Returned (r : BookingResponse).

(** The [try ... except Exception] around every part of the body. *)
Definition settle (q : BookingRequest) (m : M Task) : World -> Task * World :=
  fun w =>
    match m w with
    | (Ok t, w') => (t, w')
    | (Raise e, w') => (Returned (failed q e), w')
    end.

Section Tasks.

Variable fromisoformat : string -> Result datetime.

Definition step (env : Env) (t : Task) : World -> Task * World :=
  match t with
  | Pending q =>
      settle q
        (start_time <- lift (fromisoformat (req_startTime q)) ;;
         end_time <- lift (fromisoformat (req_endTime q)) ;;
         available_schedule <-
           Schedule_find_first env
             (covering (req_professionalId q) start_time end_time) ;;
         match available_schedule with
         | None => ret (Returned (not_available q))
         | Some sch => ret (AwaitCreate q start_time end_time sch)
         end)
  | AwaitCreate q start_time end_time sch =>
      settle q
        (new_appointment <-
           Appointment_create env (sched_id sch) (req_clientId q)
             start_time end_time ;;
         ret (AwaitUpdate q new_appointment sch))
  | AwaitUpdate q new_appointment sch =>
      settle q
        (Schedule_update env (sched_id sch) "Booked" ;;;
         ret (Returned (booked q new_appointment)))
  | Returned r => fun w => (Returned r, w)
  end.

(** One call run without interruption. *)
Definition run_alone (env : Env) (q : BookingRequest) (w : World)
  : Task * World :=
  let '(t1, w1) := step env (Pending q) w in
  let '(t2, w2) := step env t1 w1 in
  step env t2 w2.

(** Two calls under a schedule of the event loop: [true] lets the first
    call take its next step, [false] the second. *)
Fixpoint interleave (sched : list bool) (env1 env2 : Env)
    (t1 t2 : Task) (w : World) : Task * Task * World :=
  match sched with
  | [] => (t1, t2, w)
  | true :: rest =>
      let '(t1', w') := step env1 t1 w in
      interleave rest env1 env2 t1' t2 w'
  | false :: rest =>
      let '(t2', w') := step env2 t2 w in
      interleave rest env1 env2 t1 t2' w'
  end.

End Tasks.

Definition succeeded (t : Task) : bool :=
  match t with
  | Returned r => String.eqb (status r) "Success"
  | _ => false
  end.

(** ** fetch_availability *)

Record TimeSlot := mkTimeSlot {
  start_time : datetime;
  end_time : datetime;
  slot_status : string
}.

Record FetchAvailabilityResponse := mkFetchAvailabilityResponse {
  availability : list TimeSlot
}.

(** The [where] clause of [fetch_availability]. *)
Definition listed (professional : string) (r : Schedule) : bool :=
  String.eqb (sched_professionalId r) professional
  && String.eqb (sched_status r) "AVAILABLE".

Definition to_time_slot (schedule : Schedule) : TimeSlot :=
  mkTimeSlot (sched_start schedule) (sched_end schedule)
    (sched_status schedule).

Definition fetch_availability (env : Env) (professional : string)
  : M FetchAvailabilityResponse :=
  found <- Schedule_find_many env (listed professional) ;;
  ret (mkFetchAvailabilityResponse (List.map to_time_slot found)).

(** ** sync_external_schedule *)

Record SyncScheduleResponse := mkSyncScheduleResponse {
  success : bool;
  synced_appointments_count : Z;
  errors : list string
}.

(** [not api_key or external_system_name not in ["SystemA", "SystemB"]] *)
Definition rejected (external_system_name api_key : string) : bool :=
  String.eqb api_key ""
  || negb (existsb (String.eqb external_system_name) ["SystemA"; "SystemB"]).

Definition sync_external_schedule
    (professional_id external_system_name api_key : string)
    (sync_start_date sync_end_date : datetime) : M SyncScheduleResponse :=
  if rejected external_system_name api_key
  then ret (mkSyncScheduleResponse false 0
              ["Invalid API Key or External System Name"])
  else
    try_except
      (let synced_appointments := 5%Z in
       ret (mkSyncScheduleResponse true synced_appointments []))
      (fun e => ret (mkSyncScheduleResponse false 0 [e])).

(** ** The properties the services are checked against *)

(** The windows [[s1,e1)] and [[s2,e2)] have a point in common. *)
Definition overlaps (s1 e1 s2 e2 : datetime) : Prop :=
  (s1 < e2 /\ s2 < e1)%Z.

Definition appts_overlap (a1 a2 : Appointment) : Prop :=
  overlaps (appt_startTime a1) (appt_endTime a1)
    (appt_startTime a2) (appt_endTime a2).

Definition slots_overlap (r1 r2 : Schedule) : Prop :=
  overlaps (sched_start r1) (sched_end r1) (sched_start r2) (sched_end r2).

(** [a] is an appointment of [professional] against a Booked slot. *)
Definition booked_for (s : Store) (professional : string) (a : Appointment)
  : Prop :=
  exists r, r ∈ schedules s /\ sched_id r = appt_scheduleId a
    /\ sched_professionalId r = professional /\ sched_status r = "Booked".

(** For a given professional, no two Booked appointments overlap. *)
Definition no_double_booking (s : Store) : Prop :=
  forall (i j : nat) (a1 a2 : Appointment) (professional : string),
    i <> j ->
    appointments s !! i = Some a1 ->
    appointments s !! j = Some a2 ->
    booked_for s professional a1 ->
    booked_for s professional a2 ->
    ~ appts_overlap a1 a2.

(** Every appointment lies within the window of a Booked slot. *)
Definition within_booked_slot (s : Store) (a : Appointment) : Prop :=
  exists r, r ∈ schedules s /\ sched_id r = appt_scheduleId a
    /\ sched_status r = "Booked"
    /\ (sched_start r <= appt_startTime a)%Z
    /\ (appt_endTime a <= sched_end r)%Z.

(** The stores on which bookings cannot collide: slot ids are unique, the
    slots of one professional do not overlap one another, and the
    appointments are against Booked slots, one for each slot at most. *)
Record consistent (s : Store) : Prop := mkConsistent {
  ids_unique : NoDup (List.map sched_id (schedules s));
  slots_disjoint :
    forall r1 r2, r1 ∈ schedules s -> r2 ∈ schedules s ->
      sched_professionalId r1 = sched_professionalId r2 ->
      sched_id r1 <> sched_id r2 -> ~ slots_overlap r1 r2;
  appts_within : forall a, a ∈ appointments s -> within_booked_slot s a;
  one_per_slot :
    forall (i j : nat) (a1 a2 : Appointment),
      appointments s !! i = Some a1 -> appointments s !! j = Some a2 ->
      appt_scheduleId a1 = appt_scheduleId a2 -> i = j
}.


(** An Available slot of [professional] that covers [[start_,end_)]. *)
Definition covers_available (professional : string)
    (start_ end_ : datetime) (r : Schedule) : Prop :=
  sched_professionalId r = professional /\ sched_status r = "Available"
  /\ (sched_start r <= start_)%Z /\ (end_ <= sched_end r)%Z.

(** The world after the slot lookup, after the creation of [a], and after
    the update of the slot [id]. *)
Definition looked_up (w : World) : World :=
  mkWorld (store w) (log w ++ [OpFindFirst]).

Definition create_issued (a : Appointment) (w : World) : World :=
  mkWorld (store w) (log w ++ [OpFindFirst; OpCreate a]).

Definition created (a : Appointment) (id : string) (w : World) : World :=
  mkWorld (mkStore (schedules (store w)) (appointments (store w) ++ [a]))
    (log w ++ [OpFindFirst; OpCreate a; OpUpdate id "Booked"]).

Definition marked_booked (a : Appointment) (id : string) (w : World)
  : World :=
  mkWorld (mkStore (List.map (set_status id "Booked") (schedules (store w)))
             (appointments (store w) ++ [a]))
    (log w ++ [OpFindFirst; OpCreate a; OpUpdate id "Booked"]).

(** Ascending by start time. *)
Fixpoint sorted_by_start (l : list TimeSlot) : bool :=
  match l with
  | x :: (y :: _) as rest =>
      (start_time x <=? start_time y)%Z && sorted_by_start rest
  | _ => true
  end.

(** ** Timestamps of the examples

    [iso_seconds] stands for [datetime.fromisoformat] in the examples.  It
    reads the timestamps [YYYY-MM-DDTHH:MM:SS] with every field in range
    and gives the seconds since 1970-01-01T00:00:00; every other string is
    rejected ([datetime.fromisoformat] reads further forms, none of which
    occurs in the examples).  The theorems hold for any parser. *)
Module Iso.

Definition digit (c : ascii) : option Z :=
  let n := Z.of_nat (nat_of_ascii c) in
  if ((48 <=? n) && (n <=? 57))%Z then Some (n - 48)%Z else None.

Fixpoint number (acc : Z) (cs : list ascii) : option Z :=
  match cs with
  | [] => Some acc
  | c :: rest => d ← digit c; number (10 * acc + d)%Z rest
  end.

Definition is_leap (y : Z) : bool :=
  ((y mod 4 =? 0) && (negb (y mod 100 =? 0) || (y mod 400 =? 0)))%Z.

Definition days_in_month (y m : Z) : Z :=
  if (m =? 2)%Z then (if is_leap y then 29 else 28)%Z
  else if ((m =? 4) || (m =? 6) || (m =? 9) || (m =? 11))%Z then 30%Z
  else 31%Z.

(** Days from 1970-01-01 to the given date of the Gregorian calendar. *)
Definition days_from_civil (y m d : Z) : Z :=
  let y' := (if m <=? 2 then y - 1 else y)%Z in
  let era := (y' / 400)%Z in
  let yoe := (y' - era * 400)%Z in
  let mp := (if m <=? 2 then m + 9 else m - 3)%Z in
  let doy := ((153 * mp + 2) / 5 + d - 1)%Z in
  let doe := (yoe * 365 + yoe / 4 - yoe / 100 + doy)%Z in
  (era * 146097 + doe - 719468)%Z.

Definition is_char (c : ascii) (s : string) : bool :=
  String.eqb (String c EmptyString) s.

Definition parse (s : string) : option Z :=
  match list_ascii_of_string s with
  | [y1; y2; y3; y4; s1; m1; m2; s2; d1; d2; t; h1; h2; c1; n1; n2; c2;
     e1; e2] =>
      if is_char s1 "-" && is_char s2 "-" && is_char t "T"
         && is_char c1 ":" && is_char c2 ":"
      then
        y ← number 0 [y1; y2; y3; y4];
        m ← number 0 [m1; m2];
        d ← number 0 [d1; d2];
        h ← number 0 [h1; h2];
        n ← number 0 [n1; n2];
        e ← number 0 [e1; e2];
        if ((1 <=? y) && (1 <=? m) && (m <=? 12) && (1 <=? d)
            && (d <=? days_in_month y m) && (h <=? 23) && (n <=? 59)
            && (e <=? 59))%Z
        then Some (days_from_civil y m d * 86400 + h * 3600 + n * 60 + e)%Z
        else None
      else None
  | _ => None
  end.

Definition iso_seconds (s : string) : Result datetime :=
  match parse s with
  | Some t => Ok t
  | None => Raise ("Invalid isoformat string: '" +:+ s +:+ "'")
  end.

End Iso.

(** ** Example data: one professional, one or two open slots *)
Module Ex.

Definition t1000 : datetime := 1704103200%Z.  (* 2024-01-01T10:00:00 *)
Definition t1100 : datetime := 1704106800%Z.  (* 2024-01-01T11:00:00 *)
Definition t1200 : datetime := 1704110400%Z.  (* 2024-01-01T12:00:00 *)

Definition slot1 : Schedule := mkSchedule "s1" "P" t1000 t1100 "Available".

Definition one_slot : World := mkWorld (mkStore [slot1] []) [].

(** Two open slots of the same professional over the same two hours. *)
Definition wide1 : Schedule := mkSchedule "s1" "P" t1000 t1200 "Available".
Definition wide2 : Schedule := mkSchedule "s2" "P" t1000 t1200 "Available".

Definition two_slots : World := mkWorld (mkStore [wide1; wide2] []) [].

Definition request (client start_ end_ : string) : BookingRequest :=
  mkBookingRequest "P" client start_ end_ None.

Definition hour_A : BookingRequest :=
  request "A" "2024-01-01T10:00:00" "2024-01-01T11:00:00".

Definition half_hour_B : BookingRequest :=
  request "B" "2024-01-01T10:00:00" "2024-01-01T10:30:00".

Definition reversed_A : BookingRequest :=
  request "A" "2024-01-01T10:45:00" "2024-01-01T10:15:00".

(** Two listed slots, the later one first in the table. *)
Definition late_first : World :=
  mkWorld (mkStore [mkSchedule "s2" "P" t1100 t1200 "AVAILABLE";
                    mkSchedule "s1" "P" t1000 t1100 "AVAILABLE"] []) [].

(** The slot from 10:00 to 11:00 is booked by client A. *)
Definition booked_slot : World :=
  mkWorld (mkStore [mkSchedule "s1" "P" t1000 t1100 "Booked"]
             [mkAppointment "a1" "s1" "A" t1000 t1100]) [].

(** The slot from 10:00 to 11:00 is booked by client A and the slot from
    11:00 to 12:00 is open. *)
Definition morning : World :=
  mkWorld (mkStore [mkSchedule "s1" "P" t1000 t1100 "Booked";
                    mkSchedule "s2" "P" t1100 t1200 "Available"]
             [mkAppointment "a1" "s1" "A" t1000 t1100]) [].

Definition next_hour_B : BookingRequest :=
  request "B" "2024-01-01T11:00:00" "2024-01-01T12:00:00".



End Ex.

(** ** The request handlers of [server.py]

    Every handler awaits its service inside [try ... except Exception].
    In the [except] clause it puts the text of the exception in a [dict]
    and passes that [dict] as the content of a [Response] with status
    code 500. *)

(** What can be passed to [Response] as its content. *)
Inductive Content :=
| ContentNone
| ContentBytes (b : string)
| ContentStr (s : string)
| ContentDict (d : gmap string string).

Record Response := mkResponse {
  body : string;
  status_code : Z;
  media_type : string
}.

(** [starlette.responses.Response.render]: no content is the empty body,
    bytes are the body, and any other content is asked to [encode]
    itself, which a [dict] cannot do ([AttributeError]). *)
Definition render (content : Content) : Result string :=
  match content with
  | ContentNone => Ok ""
  | ContentBytes b => Ok b
  | ContentStr s => Ok s
  | ContentDict _ => Raise "'dict' object has no attribute 'encode'"
  end.

(** [Response(content=..., status_code=..., media_type=...)]: the body
    is rendered when the response is built. *)
Definition Response_init (content : Content) (status_code_ : Z)
    (media_type_ : string) : Result Response :=
  match render content with
  | Ok b => Ok (mkResponse b status_code_ media_type_)
  | Raise e => Raise e
  end.

(** [res = dict(); res["error"] = str(e)] *)
Definition error_dict (e : string) : gmap string string :=
  <["error" := e]> ∅.

(** The [except] clause of a handler:
    [return Response(content=jsonable_encoder(res), status_code=500,
                     media_type="application/json")]. *)
Definition except_clause {A} (e : string) : M (A + Response) :=
  resp <- lift (Response_init (ContentDict (error_dict e)) 500
                  "application/json") ;;
  ret (inr resp).

Definition api_post_book_appointment
    (fromisoformat : string -> Result datetime) (env : Env)
    (professionalId clientId startTime endTime : string)
    (details : option string) : M (BookingResponse + Response) :=
  try_except
    (res <- book_appointment fromisoformat env
              (mkBookingRequest professionalId clientId startTime endTime
                 details) ;;
     ret (inl res))
    except_clause.

Definition api_post_sync_external_schedule
    (professional_id external_system_name api_key : string)
    (sync_start_date sync_end_date : datetime)
  : M (SyncScheduleResponse + Response) :=
  try_except
    (res <- sync_external_schedule professional_id external_system_name
              api_key sync_start_date sync_end_date ;;
     ret (inl res))
    except_clause.

Definition api_get_fetch_availability (env : Env) (professionalId : string)
  : M (FetchAvailabilityResponse + Response) :=
  try_except
    (res <- fetch_availability env professionalId ;; ret (inl res))
    except_clause.

(** No row of the slot [id] is Available. *)
Definition unavailable (id : string) (s : Store) : Prop :=
  forall r, r ∈ schedules s -> sched_id r = id ->
    sched_status r <> "Available".

(** The slot that a call in flight has looked up and is about to write
    to. *)
Definition target (t : Task) : option string :=
  match t with
  | Pending _ => None
  | AwaitCreate _ _ _ sch => Some (sched_id sch)
  | AwaitUpdate _ _ sch => Some (sched_id sch)
  | Returned _ => None
  end.

(** What is left of a call: the number of database calls before it has
    returned. *)
Definition steps_left (t : Task) : nat :=
  match t with
  | Pending _ => 3
  | AwaitCreate _ _ _ _ => 2
  | AwaitUpdate _ _ _ => 1
  | Returned _ => 0
  end.

(** What a slot is apart from its status. *)
Definition slot_frame (r : Schedule) : string * string * datetime * datetime :=
  (sched_id r, sched_professionalId r, sched_start r, sched_end r).

(** The rows of the slot [id]. *)
Definition rows_of (id : string) (s : Store) : list Schedule :=
  List.filter (fun r => String.eqb (sched_id r) id) (schedules s).

(** The appointments against the slot [id]. *)
Definition appointments_of (id : string) (s : Store) : list Appointment :=
  List.filter (fun a => String.eqb (appt_scheduleId a) id) (appointments s).

(** ** The user services: tables, failures and monad *)
Module UserDb.

(** [prisma.enums.UserRole] *)
Inductive UserRole := Professional | Client | Admin.

(** A row of [prisma.models.User]. *)
Record User := mkUser {
  user_id : string;
  user_email : string;
  user_hashedPassword : string;
  user_role : UserRole;
  user_createdAt : datetime;
  user_updatedAt : datetime
}.

(** A row of [prisma.models.Profile]. *)
Record Profile := mkProfile {
  profile_id : string;
  profile_firstName : string;
  profile_lastName : string;
  profile_userId : string
}.

Record Db := mkDb {
  users : list User;
  profiles : list Profile
}.

(** The exceptions of the user services: [fastapi.HTTPException] and a
    plain [Exception] with its text (a failure of the database or of a
    library is of the second kind). *)
Inductive Exn :=
| HTTPException (status_code : Z) (detail : string)
| Exception (text : string).

Inductive Outcome (A : Type) :=
| Return (a : A)
| Throw (e : Exn).
Arguments Return {A} a.
Arguments Throw {A} e.

Definition U (A : Type) := Db -> Outcome A * Db.

Definition uret {A} (a : A) : U A := fun d => (Return a, d).

Definition throw {A} (e : Exn) : U A := fun d => (Throw e, d).

Definition ubind {A B} (m : U A) (k : A -> U B) : U B :=
  fun d =>
    match m d with
    | (Return a, d') => k a d'
    | (Throw e, d') => (Throw e, d')
    end.

Definition ulift {A} (r : Outcome A) : U A := fun d => (r, d).

Definition get_db : U Db := fun d => (Return d, d).

Definition put_db (d : Db) : U unit := fun _ => (Return tt, d).

Definition db_fails (err : option string) : U unit :=
  match err with
  | Some e => throw (Exception e)
  | None => uret tt
  end.

(** The conditions under which one call of a user service runs: which of
    its database calls fail, the ids the database gives to new rows, the
    salt of the password hash and the reading of the clock. *)
Record Env := mkEnv {
  find_unique_error : option string;
  user_create_error : option string;
  profile_create_error : option string;
  profile_update_error : option string;
  new_user_id : string;
  new_profile_id : string;
  salt : string;
  utcnow : datetime
}.

Definition healthy (uid pid salt_ : string) (now : datetime) : Env :=
  mkEnv None None None None uid pid salt_ now.

Declare Scope user_scope.
Delimit Scope user_scope with user.
Notation "x <- m ;; k" := (ubind m (fun x => k))
  (at level 100, m at next level, right associativity) : user_scope.
Notation "m ;;; k" := (ubind m (fun _ => k))
  (at level 100, right associativity) : user_scope.
Local Open Scope user_scope.

(** [User.prisma().find_unique(where={"email": email})] *)
Definition User_find_unique_email (env : Env) (email : string)
  : U (option User) :=
  db_fails (find_unique_error env) ;;;
  d <- get_db ;;
  uret (List.find (fun u => String.eqb (user_email u) email) (users d)).

(** The rows of the relation [profiles] of a user. *)
Definition profiles_of (d : Db) (u : User) : list Profile :=
  List.filter (fun p => String.eqb (profile_userId p) (user_id u))
    (profiles d).

(** [find_unique(where={"email": email}, include={"profiles": True})] *)
Definition User_find_unique_email_profiles (env : Env) (email : string)
  : U (option (User * list Profile)) :=
  db_fails (find_unique_error env) ;;;
  d <- get_db ;;
  uret (match List.find (fun u => String.eqb (user_email u) email)
                (users d) with
        | Some u => Some (u, profiles_of d u)
        | None => None
        end).

(** [find_unique(where={"id": id}, include={"profiles": True})] *)
Definition User_find_unique_id_profiles (env : Env) (id : string)
  : U (option (User * list Profile)) :=
  db_fails (find_unique_error env) ;;;
  d <- get_db ;;
  uret (match List.find (fun u => String.eqb (user_id u) id) (users d) with
        | Some u => Some (u, profiles_of d u)
        | None => None
        end).

(** [User.prisma().create(data={...})] *)
Definition User_create (env : Env) (email hashedPassword : string)
    (role : UserRole) : U User :=
  let u := mkUser (new_user_id env) email hashedPassword role
             (utcnow env) (utcnow env) in
  db_fails (user_create_error env) ;;;
  d <- get_db ;;
  put_db (mkDb (users d ++ [u]) (profiles d)) ;;;
  uret u.

(** [Profile.prisma().create(data={...})] *)
Definition Profile_create (env : Env) (firstName lastName userId : string)
  : U Profile :=
  let p := mkProfile (new_profile_id env) firstName lastName userId in
  db_fails (profile_create_error env) ;;;
  d <- get_db ;;
  put_db (mkDb (users d) (profiles d ++ [p])) ;;;
  uret p.

Definition set_names (id firstName lastName : string) (p : Profile)
  : Profile :=
  if String.eqb (profile_id p) id
  then mkProfile (profile_id p) firstName lastName (profile_userId p)
  else p.

(** [Profile.prisma().update(where={"id": id}, data={...})] *)
Definition Profile_update (env : Env) (id firstName lastName : string)
  : U unit :=
  db_fails (profile_update_error env) ;;;
  d <- get_db ;;
  put_db (mkDb (users d)
            (List.map (set_names id firstName lastName) (profiles d))).

(** [user.profiles[0] if user.profiles else None] *)
Definition first_profile (ps : list Profile) : option Profile :=
  match ps with
  | [] => None
  | p :: _ => Some p
  end.

End UserDb.

(** ** user_login *)
Module Login.
Import UserDb.
Local Open Scope user_scope.

Record UserLoginResponse := mkUserLoginResponse {
  success : bool;
  token : option string;
  message : string
}.

(** A value of the claims of a token. *)
Inductive Claim :=
| ClaimStr (s : string)
| ClaimTime (t : datetime).

Section Login.

(** [pwd_context.verify]: whether the password matches the hash, or the
    exception of the library on a hash it does not recognise. *)
Variable verify : string -> string -> Outcome bool.

(** [jose.jwt.encode(claims, key, algorithm=...)] *)
Variable jwt_encode : gmap string Claim -> string -> string -> string.

Definition verify_password (plain_password hashed_password : string)
  : Outcome bool :=
  verify plain_password hashed_password.

(** The claims that [create_access_token] signs: a copy of [data] with
    the expiry, fifteen minutes from now. *)
Definition to_encode (env : Env) (data : gmap string Claim)
  : gmap string Claim :=
  let expire := (utcnow env + 15 * 60)%Z in
  <["exp" := ClaimTime expire]> data.

Definition create_access_token (env : Env) (data : gmap string Claim)
  : string :=
  let secret_key := "SECRET_KEY" in
  let algorithm := "HS256" in
  jwt_encode (to_encode env data) secret_key algorithm.

Definition user_login (env : Env) (email password : string)
  : U UserLoginResponse :=
  user <- User_find_unique_email env email ;;
  match user with
  | None =>
      throw (HTTPException 404
               "prisma.models.User with this email does not exist")
  | Some user =>
      ok <- ulift (verify_password password (user_hashedPassword user)) ;;
      if negb ok
      then uret (mkUserLoginResponse false None "Incorrect password")
      else
        let token_data := <["sub" := ClaimStr (user_email user)]> ∅ in
        let token := create_access_token env token_data in
        uret (mkUserLoginResponse true (Some token) "Login successful")
  end.

End Login.
End Login.

(** ** user_registration *)
Module Registration.
Import UserDb.
Local Open Scope user_scope.

Record UserRegistrationResponse := mkUserRegistrationResponse {
  user_id : string;
  email : string;
  role : UserRole;
  message : string
}.

Section Registration.

(** [pwd_context.hash]: the hash of the password under a salt, or the
    exception of the library. *)
Variable hash : string -> string -> Outcome string.

Definition user_registration (env : Env)
    (email_ password first_name last_name : string) (role_ : UserRole)
  : U UserRegistrationResponse :=
  existing_user <- User_find_unique_email env email_ ;;
  match existing_user with
  | Some _ =>
      uret (mkUserRegistrationResponse "" "" role_ "Email already in use.")
  | None =>
      hashed_password <- ulift (hash (salt env) password) ;;
      new_user <- User_create env email_ hashed_password role_ ;;
      Profile_create env first_name last_name (UserDb.user_id new_user) ;;;
      uret (mkUserRegistrationResponse (UserDb.user_id new_user)
              (user_email new_user) role_ "User successfully registered.")
  end.

End Registration.
End Registration.

(** ** update_user_profile *)
Module UpdateProfile.
Import UserDb.
Local Open Scope user_scope.

Record Preferences := mkPreferences {
  receiveEmails : bool;
  receiveSMS : bool
}.

Record Address := mkAddress {
  street : string;
  city : string;
  state : string;
  zipcode : string;
  country : string
}.

Record UpdateUserProfileResponse := mkUpdateUserProfileResponse {
  success : bool;
  message : string
}.

Definition update_user_profile (env : Env)
    (firstName lastName email : string)
    (preferences : Preferences) (address : Address)
  : U UpdateUserProfileResponse :=
  user <- User_find_unique_email_profiles env email ;;
  match user with
  | None => uret (mkUpdateUserProfileResponse false "User not found")
  | Some (_, user_profiles) =>
      match first_profile user_profiles with
      | Some userProfile =>
          Profile_update env (profile_id userProfile) firstName lastName ;;;
          uret (mkUpdateUserProfileResponse true
                  "User profile updated successfully")
      | None =>
          uret (mkUpdateUserProfileResponse false
                  "Profile not found for the user")
      end
  end.

End UpdateProfile.

(** ** get_user_profile *)
Module GetProfile.
Import UserDb.
Local Open Scope user_scope.

Record UserProfileResponse := mkUserProfileResponse {
  id : string;
  email : string;
  firstName : string;
  lastName : string;
  role : UserRole;
  createdAt : datetime;
  updatedAt : datetime
}.

Definition current_user_id : string := "your-authenticated-user-id".

Definition get_user_profile (env : Env) : U UserProfileResponse :=
  user <- User_find_unique_id_profiles env current_user_id ;;
  match user with
  | None => throw (Exception "User profile not found.")
  | Some (user, user_profiles) =>
      match first_profile user_profiles with
      | None =>
          throw (Exception "User does not have an associated profile.")
      | Some profile =>
          uret (mkUserProfileResponse (user_id user) (user_email user)
                  (profile_firstName profile) (profile_lastName profile)
                  (user_role user) (user_createdAt user)
                  (user_updatedAt user))
      end
  end.

End GetProfile.

(** ** The request handlers of the user services *)
Module UserServer.
Import UserDb.
Local Open Scope user_scope.

Section Handlers.

(** [str(e)] of an [HTTPException] with the given status code and detail. *)
Variable http_exception_str : Z -> string -> string.

Definition str (e : Exn) : string :=
  match e with
  | HTTPException status_code detail =>
      http_exception_str status_code detail
  | Exception text => text
  end.

(** [try: res = await service; return res
     except Exception as e: res = dict(); res["error"] = str(e);
                            return Response(content=..., ...)]
    The exception of the [except] clause is the exception of the
    handler. *)
Definition handle {A} (service : U A) : U (A + Response) :=
  fun d =>
    match service d with
    | (Return res, d') => (Return (inl res), d')
    | (Throw e, d') =>
        match Response_init (ContentDict (error_dict (str e))) 500
                "application/json" with
        | Ok resp => (Return (inr resp), d')
        | Raise text => (Throw (Exception text), d')
        end
    end.

Definition api_post_user_login verify jwt_encode (env : Env)
    (email password : string) :=
  handle (Login.user_login verify jwt_encode env email password).

Definition api_post_user_registration hash (env : Env)
    (email password first_name last_name : string) (role : UserRole) :=
  handle (Registration.user_registration hash env email password
            first_name last_name role).

Definition api_put_update_user_profile (env : Env)
    (firstName lastName email : string)
    (preferences : UpdateProfile.Preferences)
    (address : UpdateProfile.Address) :=
  handle (UpdateProfile.update_user_profile env firstName lastName email
            preferences address).

Definition api_get_get_user_profile (env : Env) :=
  handle (GetProfile.get_user_profile env).

End Handlers.
End UserServer.

(** ** Example data of the user services *)
Module UEx.
Import UserDb.

(** A password library for the examples: the hash is the salt, a dollar
    sign and the password; a string without a dollar sign is not a hash. *)
Fixpoint after_dollar (s : string) : option string :=
  match s with
  | EmptyString => None
  | String c rest =>
      if Ascii.eqb c "$"%char then Some rest else after_dollar rest
  end.

Definition hash (salt_ password : string) : Outcome string :=
  Return (salt_ +:+ "$" +:+ password).

Definition verify (password hashed : string) : Outcome bool :=
  match after_dollar hashed with
  | Some p => Return (String.eqb p password)
  | None => Throw (Exception "hash could not be identified")
  end.

Definition jwt_encode (claims : gmap string Login.Claim)
    (key algorithm : string) : string :=
  match claims !! "sub" with
  | Some (Login.ClaimStr sub) => algorithm +:+ "." +:+ sub
  | _ => algorithm
  end.

Definition http_exception_str (status_code : Z) (detail : string) : string :=
  detail.

Definition empty : Db := mkDb [] [].

Definition env1 : Env := healthy "u1" "p1" "salt" 1704103200%Z.

Definition env2 : Env := healthy "u2" "p2" "pepper" 1704106800%Z.

(** The creation of the profile fails. *)
Definition no_profile : Env :=
  mkEnv None None (Some "connection lost") None "u1" "p1" "salt"
    1704103200%Z.

(** The user of the hard-coded id, with a profile. *)
Definition signed_in : Db :=
  mkDb [mkUser "your-authenticated-user-id" "ann@example.com" "salt$pw"
          Client 1704103200%Z 1704103200%Z]
       [mkProfile "p1" "Ann" "Lee" "your-authenticated-user-id"].

End UEx.

(** ** Properties of the monad and of the database calls *)

Lemma covering_spec professional start_ end_ r :
  covering professional start_ end_ r = true
  <-> covers_available professional start_ end_ r.
Proof.
  unfold covering, covers_available.
  rewrite !andb_true_iff, !String.eqb_eq, Z.leb_le, Z.geb_le.
  tauto.
Qed.

Lemma find_none_iff {A} (f : A -> bool) (l : list A) :
  List.find f l = None <-> forall x, x ∈ l -> f x = false.
Proof.
  split.
  - intros H x Hx. apply list_elem_of_In in Hx.
    exact (List.find_none f l H x Hx).
  - induction l as [|y l IH]; intros H; simpl; [reflexivity|].
    rewrite (H y) by constructor.
    apply IH. intros x Hx. apply H. now constructor.
Qed.

Lemma find_some_elem {A} (f : A -> bool) (l : list A) x :
  List.find f l = Some x -> x ∈ l /\ f x = true.
Proof.
  intros H. apply List.find_some in H as [Hin Hf].
  split; [now apply list_elem_of_In | exact Hf].
Qed.

Section BookingFacts.

Variable fromisoformat : string -> Result datetime.

(** Every path through the body of [book_appointment]. *)
Lemma body_paths env q w :
  book_appointment_body fromisoformat env q w =
  match fromisoformat (req_startTime q) with
  | Raise e => (Raise e, w)
  | Ok st =>
    match fromisoformat (req_endTime q) with
    | Raise e => (Raise e, w)
    | Ok en =>
      match find_first_error env with
      | Some e => (Raise e, looked_up w)
      | None =>
        match List.find (covering (req_professionalId q) st en)
                (schedules (store w)) with
        | None => (Ok (not_available q), looked_up w)
        | Some sch =>
          let a := mkAppointment (new_appointment_id env) (sched_id sch)
                     (req_clientId q) st en in
          match create_error env with
          | Some e => (Raise e, create_issued a w)
          | None =>
            match update_error env with
            | Some e => (Raise e, created a (sched_id sch) w)
            | None => (Ok (booked q a), marked_booked a (sched_id sch) w)
            end
          end
        end
      end
    end
  end.
Proof.
  unfold book_appointment_body, bind, lift.
  destruct (fromisoformat (req_startTime q)) as [st|e]; [|reflexivity].
  destruct (fromisoformat (req_endTime q)) as [en|e]; [|reflexivity].
  unfold Schedule_find_first, Appointment_create, Schedule_update,
    looked_up, create_issued, created, marked_booked,
    bind, issue, fail_if, get_store, put_store, ret, raise.
  destruct (find_first_error env); simpl; [reflexivity|].
  destruct (List.find _ _) as [sch|]; simpl; [|reflexivity].
  destruct (create_error env); simpl; rewrite <- ?app_assoc; simpl;
    [reflexivity|].
  destruct (update_error env); simpl; rewrite <- ?app_assoc; simpl;
    reflexivity.
Qed.

Lemma book_try env q w :
  book_appointment fromisoformat env q w =
  match book_appointment_body fromisoformat env q w with
  | (Ok r, w') => (Ok r, w')
  | (Raise e, w') => (Ok (failed q e), w')
  end.
Proof. reflexivity. Qed.

(** The handler of [book_appointment] does not raise. *)
Lemma book_returns env q w :
  exists r w', book_appointment fromisoformat env q w = (Ok r, w').
Proof.
  rewrite book_try.
  destruct (book_appointment_body fromisoformat env q w) as [[r|e] w'];
    eauto.
Qed.

(** ** Claims about book_appointment *)

(** C10: [book_appointment] returns a response on every input and under
    every failure of the database; an exception raised in its body
    becomes the response with status "Failure", an empty bookingId and the
    text of the exception as errorMessage, and a response returned by the
    body is returned as it is. *)
Theorem book_appointment_total env q w :
  exists r w',
    book_appointment fromisoformat env q w = (Ok r, w')
    /\ (forall e w'',
          book_appointment_body fromisoformat env q w = (Raise e, w'') ->
          w' = w'' /\ r = failed q e /\ status r = "Failure"
          /\ bookingId r = "" /\ errorMessage r = Some e)
    /\ (forall r0 w'',
          book_appointment_body fromisoformat env q w = (Ok r0, w'') ->
          w' = w'' /\ r = r0).
Proof.
  rewrite book_try.
  destruct (book_appointment_body fromisoformat env q w) as [[r0|e0] w0].
  - exists r0, w0. split; [reflexivity|]. split.
    + intros e w'' H. discriminate H.
    + intros r1 w'' H. now inversion H.
  - exists (failed q e0), w0. split; [reflexivity|]. split.
    + intros e w'' H. inversion H; subst. now repeat split.
    + intros r1 w'' H. discriminate H.
Qed.

(** C7: when no Available slot of the professional covers the requested
    window, the body of [book_appointment] returns (it does not raise) the
    failure response that carries the "not available" message, and the
    only database call is the slot lookup: the tables are unchanged. *)
Theorem no_covering_slot_not_available env q w st en :
  fromisoformat (req_startTime q) = Ok st ->
  fromisoformat (req_endTime q) = Ok en ->
  find_first_error env = None ->
  (forall r, r ∈ schedules (store w) ->
     ~ covers_available (req_professionalId q) st en r) ->
  book_appointment_body fromisoformat env q w
    = (Ok (not_available q), looked_up w)
  /\ book_appointment fromisoformat env q w
      = (Ok (not_available q), looked_up w)
  /\ store (snd (book_appointment fromisoformat env q w)) = store w
  /\ status (not_available q) = "Failure"
  /\ errorMessage (not_available q)
      = Some "Professional is not available at the requested time.".
Proof.
  intros Hst Hen Hff Hnone.
  assert (Hfind : List.find (covering (req_professionalId q) st en)
                    (schedules (store w)) = None).
  { apply find_none_iff. intros r Hr.
    destruct (covering _ _ _ r) eqn:E; [|reflexivity].
    apply covering_spec in E. now destruct (Hnone r Hr). }
  assert (Hbody : book_appointment_body fromisoformat env q w
                  = (Ok (not_available q), looked_up w)).
  { rewrite body_paths, Hst, Hen, Hff, Hfind. reflexivity. }
  rewrite book_try, Hbody. now repeat split.
Qed.

(** C4 (as amended): the order of the two times is not validated.  With
    start >= end and a database that answers, the slot lookup is issued as
    for any other window: the call fails, leaving the tables as they were,
    when no Available slot of the professional starts at or before start
    and ends at or after end, and otherwise books the first such slot. *)
Theorem reversed_window_is_looked_up env q w st en :
  fromisoformat (req_startTime q) = Ok st ->
  fromisoformat (req_endTime q) = Ok en ->
  (st >= en)%Z ->
  find_first_error env = None ->
  create_error env = None ->
  update_error env = None ->
  match List.find (covering (req_professionalId q) st en)
          (schedules (store w)) with
  | None =>
      book_appointment fromisoformat env q w
      = (Ok (not_available q), looked_up w)
  | Some sch =>
      let a := mkAppointment (new_appointment_id env) (sched_id sch)
                 (req_clientId q) st en in
      book_appointment fromisoformat env q w
      = (Ok (booked q a), marked_booked a (sched_id sch) w)
  end.
Proof.
  intros Hst Hen _ Hff Hc Hu.
  rewrite book_try, body_paths, Hst, Hen, Hff.
  destruct (List.find _ _) as [sch|]; [|reflexivity].
  simpl. rewrite Hc, Hu. reflexivity.
Qed.


End BookingFacts.

(** ** Rows, ids and the status update *)

Lemma elem_of_map {A B} (f : A -> B) (l : list A) (y : B) :
  y ∈ List.map f l <-> exists x, y = f x /\ x ∈ l.
Proof.
  rewrite list_elem_of_In, in_map_iff. split.
  - intros (x & Hx & Hin). exists x. now rewrite list_elem_of_In.
  - intros (x & Hx & Hin). exists x. now rewrite <- list_elem_of_In.
Qed.

Lemma unique_id_same_row (l : list Schedule) r1 r2 :
  NoDup (List.map sched_id l) ->
  r1 ∈ l -> r2 ∈ l -> sched_id r1 = sched_id r2 -> r1 = r2.
Proof.
  induction l as [|r l IH]; simpl; intros Hnd H1 H2 Hid.
  - inversion H1.
  - inversion Hnd as [|? ? Hnotin Hnd']; subst.
    apply elem_of_cons in H1 as [->|H1], H2 as [->|H2]; auto.
    + destruct Hnotin. rewrite Hid. apply elem_of_map. now exists r2.
    + destruct Hnotin. rewrite <- Hid. apply elem_of_map. now exists r1.
Qed.

Lemma set_status_id id s r : sched_id (set_status id s r) = sched_id r.
Proof. unfold set_status. now destruct (String.eqb _ _). Qed.

Lemma set_status_professional id s r :
  sched_professionalId (set_status id s r) = sched_professionalId r.
Proof. unfold set_status. now destruct (String.eqb _ _). Qed.

Lemma set_status_start id s r :
  sched_start (set_status id s r) = sched_start r.
Proof. unfold set_status. now destruct (String.eqb _ _). Qed.

Lemma set_status_end id s r : sched_end (set_status id s r) = sched_end r.
Proof. unfold set_status. now destruct (String.eqb _ _). Qed.

Lemma set_status_hit id s r :
  sched_id r = id -> sched_status (set_status id s r) = s.
Proof. intros <-. unfold set_status. now rewrite String.eqb_refl. Qed.

Lemma set_status_miss id s r :
  sched_id r <> id -> set_status id s r = r.
Proof.
  intros H. unfold set_status.
  destruct (String.eqb_spec (sched_id r) id); [contradiction|reflexivity].
Qed.

Lemma set_status_keeps_booked id r :
  sched_status r = "Booked" ->
  sched_status (set_status id "Booked" r) = "Booked".
Proof. intros H. unfold set_status. now destruct (String.eqb _ _). Qed.

Lemma set_status_ids id s (l : list Schedule) :
  List.map sched_id (List.map (set_status id s) l) = List.map sched_id l.
Proof.
  rewrite List.map_map. apply List.map_ext. intros r. apply set_status_id.
Qed.

(** Containment carries an overlap of two appointments to their slots. *)
Lemma overlap_of_slots a1 a2 r1 r2 :
  (sched_start r1 <= appt_startTime a1)%Z ->
  (appt_endTime a1 <= sched_end r1)%Z ->
  (sched_start r2 <= appt_startTime a2)%Z ->
  (appt_endTime a2 <= sched_end r2)%Z ->
  appts_overlap a1 a2 -> slots_overlap r1 r2.
Proof. unfold appts_overlap, slots_overlap, overlaps. lia. Qed.

Lemma consistent_no_double_booking s :
  consistent s -> no_double_booking s.
Proof.
  intros [Hnd Hdis Hwithin Hone] i j a1 a2 p Hij H1 H2 Hb1 Hb2 Hov.
  destruct Hb1 as (r1 & Hr1 & Hid1 & Hp1 & _).
  destruct Hb2 as (r2 & Hr2 & Hid2 & Hp2 & _).
  destruct (Hwithin a1) as (r1' & Hr1' & Hid1' & _ & Hs1 & He1);
    [eapply list_elem_of_lookup_2; eassumption|].
  destruct (Hwithin a2) as (r2' & Hr2' & Hid2' & _ & Hs2 & He2);
    [eapply list_elem_of_lookup_2; eassumption|].
  assert (r1' = r1) as -> by
    (apply (unique_id_same_row _ _ _ Hnd); congruence).
  assert (r2' = r2) as -> by
    (apply (unique_id_same_row _ _ _ Hnd); congruence).
  destruct (decide (sched_id r1 = sched_id r2)) as [Heq|Hne].
  - apply Hij. apply (Hone i j a1 a2 H1 H2). congruence.
  - apply (Hdis r1 r2 Hr1 Hr2); [congruence|exact Hne|].
    eapply overlap_of_slots; eassumption.
Qed.

(** Booking the open slot [sch] keeps a store consistent. *)
Lemma mark_booked_consistent s sch professional st en a :
  consistent s ->
  sch ∈ schedules s ->
  covers_available professional st en sch ->
  appt_scheduleId a = sched_id sch ->
  appt_startTime a = st -> appt_endTime a = en ->
  consistent
    (mkStore (List.map (set_status (sched_id sch) "Booked") (schedules s))
       (appointments s ++ [a])).
Proof.
  intros [Hnd Hdis Hwithin Hone] Hsch (Hp & Hav & Hs & He) Hid Hast Haen.
  constructor; simpl.
  - now rewrite set_status_ids.
  - intros r1' r2' H1 H2 Hprof Hne.
    apply elem_of_map in H1 as (r1 & -> & H1).
    apply elem_of_map in H2 as (r2 & -> & H2).
    rewrite !set_status_professional in Hprof.
    rewrite !set_status_id in Hne.
    unfold slots_overlap.
    rewrite !set_status_start, !set_status_end.
    now apply (Hdis r1 r2).
  - intros a' Ha'. apply elem_of_app in Ha' as [Ha'|Ha'].
    + destruct (Hwithin a' Ha') as (r & Hr & Hrid & Hst & Hrs & Hre).
      exists (set_status (sched_id sch) "Booked" r).
      rewrite set_status_id, set_status_start, set_status_end.
      repeat split; auto using set_status_keeps_booked.
      apply elem_of_map. now exists r.
    + apply list_elem_of_singleton in Ha' as ->.
      exists (set_status (sched_id sch) "Booked" sch).
      rewrite set_status_id, set_status_start, set_status_end.
      repeat split; auto using set_status_hit; try lia.
      apply elem_of_map. now exists sch.
  - assert (Hfresh : forall k a0, appointments s !! k = Some a0 ->
                       appt_scheduleId a0 <> sched_id sch).
    { intros k a0 Hk Heq.
      destruct (Hwithin a0) as (r & Hr & Hrid & Hst & _);
        [eapply list_elem_of_lookup_2; eassumption|].
      assert (r = sch) as -> by
        (apply (unique_id_same_row _ _ _ Hnd); congruence).
      rewrite Hav in Hst. discriminate Hst. }
    intros i j a1 a2 H1 H2 Heq.
    apply lookup_snoc_Some in H1 as [[Hi H1]|[-> <-]];
      apply lookup_snoc_Some in H2 as [[Hj H2]|[-> <-]].
    + now apply (Hone i j a1 a2).
    + destruct (Hfresh i a1 H1). congruence.
    + destruct (Hfresh j a2 H2). congruence.
    + reflexivity.
Qed.

Section BookingInvariant.

Variable fromisoformat : string -> Result datetime.

(** Taken as one action, a booking whose status update does not fail
    keeps a store consistent. *)
Lemma book_keeps_consistent env q w :
  consistent (store w) ->
  update_error env = None ->
  consistent (store (snd (book_appointment fromisoformat env q w))).
Proof.
  intros Hc Hu.
  rewrite book_try, body_paths.
  destruct (fromisoformat (req_startTime q)) as [st|e]; [|exact Hc].
  destruct (fromisoformat (req_endTime q)) as [en|e]; [|exact Hc].
  destruct (find_first_error env); [exact Hc|].
  destruct (List.find _ _) as [sch|] eqn:Hfind; [|exact Hc].
  simpl. destruct (create_error env); [exact Hc|].
  rewrite Hu. simpl.
  apply find_some_elem in Hfind as [Hin Hcov].
  apply covering_spec in Hcov.
  eapply (mark_booked_consistent (store w) sch _ st en); eauto.
Qed.

End BookingInvariant.

Section TaskFacts.

Variable fromisoformat : string -> Result datetime.

(** The three steps of a call, taken without interruption, are the call. *)
Lemma run_alone_book env q w r w' :
  book_appointment fromisoformat env q w = (Ok r, w') ->
  run_alone fromisoformat env q w = (Returned r, w').
Proof.
  rewrite book_try, body_paths.
  unfold run_alone, step, settle, bind, lift.
  destruct (fromisoformat (req_startTime q)) as [st|e];
    [|intros H; inversion H; reflexivity].
  destruct (fromisoformat (req_endTime q)) as [en|e];
    [|intros H; inversion H; reflexivity].
  unfold Schedule_find_first, Appointment_create, Schedule_update,
    looked_up, create_issued, created, marked_booked,
    bind, issue, fail_if, get_store, put_store, ret, raise.
  destruct (find_first_error env); simpl;
    [intros H; inversion H; reflexivity|].
  destruct (List.find _ _) as [sch|]; simpl;
    [|intros H; inversion H; reflexivity].
  destruct (create_error env); simpl; rewrite <- ?app_assoc; simpl;
    [intros H; inversion H; reflexivity|].
  destruct (update_error env); simpl; rewrite <- ?app_assoc; simpl;
    intros H; inversion H; reflexivity.
Qed.

(** A call that reports "Success" took the path through all three
    database calls. *)
Lemma success_path env q w r w' :
  book_appointment fromisoformat env q w = (Ok r, w') ->
  status r = "Success" ->
  exists st en sch,
    fromisoformat (req_startTime q) = Ok st
    /\ fromisoformat (req_endTime q) = Ok en
    /\ List.find (covering (req_professionalId q) st en)
         (schedules (store w)) = Some sch
    /\ r = booked q (mkAppointment (new_appointment_id env) (sched_id sch)
                       (req_clientId q) st en)
    /\ w' = marked_booked
              (mkAppointment (new_appointment_id env) (sched_id sch)
                 (req_clientId q) st en) (sched_id sch) w.
Proof.
  rewrite book_try, body_paths.
  destruct (fromisoformat (req_startTime q)) as [st|e] eqn:Hst;
    [|intros H; inversion H; subst; discriminate].
  destruct (fromisoformat (req_endTime q)) as [en|e] eqn:Hen;
    [|intros H; inversion H; subst; discriminate].
  destruct (find_first_error env);
    [intros H; inversion H; subst; discriminate|].
  destruct (List.find _ _) as [sch|] eqn:Hfind;
    [|intros H; inversion H; subst; discriminate].
  simpl.
  destruct (create_error env);
    [intros H; inversion H; subst; discriminate|].
  destruct (update_error env);
    [intros H; inversion H; subst; discriminate|].
  intros H _. inversion H; subst. exists st, en, sch. now repeat split.
Qed.

Lemma succeeded_alone env q w t w' :
  run_alone fromisoformat env q w = (t, w') ->
  succeeded t = true ->
  exists r, status r = "Success"
    /\ book_appointment fromisoformat env q w = (Ok r, w').
Proof.
  intros Hrun Hs.
  destruct (book_returns fromisoformat env q w) as (r & w'' & Hbook).
  rewrite (run_alone_book _ _ _ _ _ Hbook) in Hrun.
  inversion Hrun; subst. simpl in Hs. apply String.eqb_eq in Hs.
  now exists r.
Qed.

(** C1 (as amended): on a store in which slot ids are unique, the slots of
    one professional do not overlap one another and every appointment lies
    within a Booked slot of its own, a call of [book_appointment] that
    takes its three steps with no other call in between, and whose status
    update does not fail, leaves a store of the same kind, and in such a
    store no two Booked appointments of one professional overlap. *)
Theorem booking_preserves_consistency env q w t w' :
  consistent (store w) ->
  update_error env = None ->
  run_alone fromisoformat env q w = (t, w') ->
  consistent (store w') /\ no_double_booking (store w').
Proof.
  intros Hc Hu Hrun.
  destruct (book_returns fromisoformat env q w) as (r & w'' & Hbook).
  rewrite (run_alone_book _ _ _ _ _ Hbook) in Hrun.
  inversion Hrun; subst t w'.
  pose proof (book_keeps_consistent fromisoformat env q w Hc Hu) as Hc'.
  rewrite Hbook in Hc'. simpl in Hc'.
  split; [exact Hc'|]. now apply consistent_no_double_booking.
Qed.

(** C2 (as amended): two requests for the same professional with
    overlapping windows, run one after the other without interruption on
    a consistent store, do not both succeed. *)
Theorem sequential_overlapping_bookings
    env1 env2 q1 q2 w st1 en1 st2 en2 t1 w1 t2 w2 :
  consistent (store w) ->
  req_professionalId q1 = req_professionalId q2 ->
  fromisoformat (req_startTime q1) = Ok st1 ->
  fromisoformat (req_endTime q1) = Ok en1 ->
  fromisoformat (req_startTime q2) = Ok st2 ->
  fromisoformat (req_endTime q2) = Ok en2 ->
  overlaps st1 en1 st2 en2 ->
  run_alone fromisoformat env1 q1 w = (t1, w1) ->
  run_alone fromisoformat env2 q2 w1 = (t2, w2) ->
  succeeded t1 && succeeded t2 = false.
Proof.
  intros Hc Hp Hst1 Hen1 Hst2 Hen2 Hov Hrun1 Hrun2.
  destruct (succeeded t1) eqn:Hs1; [|reflexivity].
  destruct (succeeded t2) eqn:Hs2; [|reflexivity].
  exfalso.
  destruct (succeeded_alone _ _ _ _ _ Hrun1 Hs1) as (r1 & Hok1 & Hb1).
  destruct (succeeded_alone _ _ _ _ _ Hrun2 Hs2) as (r2 & Hok2 & Hb2).
  destruct (success_path _ _ _ _ _ Hb1 Hok1)
    as (st1' & en1' & sch1 & Ha & Hb & Hf1 & _ & Hw1).
  rewrite Hst1 in Ha. rewrite Hen1 in Hb.
  inversion Ha; inversion Hb; subst st1' en1'. clear Ha Hb.
  destruct (success_path _ _ _ _ _ Hb2 Hok2)
    as (st2' & en2' & sch2 & Ha & Hb & Hf2 & _ & Hw2).
  rewrite Hst2 in Ha. rewrite Hen2 in Hb.
  inversion Ha; inversion Hb; subst st2' en2'. clear Ha Hb.
  apply find_some_elem in Hf1 as [Hin1 Hcov1].
  apply find_some_elem in Hf2 as [Hin2 Hcov2].
  apply covering_spec in Hcov1, Hcov2.
  set (a1 := mkAppointment (new_appointment_id env1) (sched_id sch1)
               (req_clientId q1) st1 en1) in *.
  set (a2 := mkAppointment (new_appointment_id env2) (sched_id sch2)
               (req_clientId q2) st2 en2) in *.
  assert (Hc1 : consistent (store w1)).
  { subst w1. simpl.
    eapply (mark_booked_consistent (store w) sch1 _ st1 en1); eauto. }
  assert (Hc2 : consistent (store w2)).
  { subst w2. simpl.
    eapply (mark_booked_consistent (store w1) sch2 _ st2 en2); eauto. }
  apply consistent_no_double_booking in Hc2.
  set (n := length (appointments (store w))).
  apply (Hc2 n (S n) a1 a2 (req_professionalId q2)).
  - lia.
  - subst w2 w1. simpl. rewrite lookup_app_l, lookup_app_r; simpl.
    + now rewrite Nat.sub_diag.
    + reflexivity.
    + rewrite length_app. simpl. fold n. lia.
  - subst w2 w1. simpl. rewrite lookup_app_r; simpl.
    + rewrite length_app. simpl. fold n.
      now replace (S n - (n + 1)) with 0 by lia.
    + rewrite length_app. simpl. fold n. lia.
  - exists (set_status (sched_id sch2) "Booked"
              (set_status (sched_id sch1) "Booked" sch1)).
    rewrite !set_status_id, !set_status_professional.
    split; [|split; [reflexivity|split]].
    + subst w2 w1. simpl. apply elem_of_map. eexists. split; [reflexivity|].
      apply elem_of_map. now exists sch1.
    + destruct Hcov1 as [? _]. congruence.
    + apply set_status_keeps_booked. now apply set_status_hit.
  - exists (set_status (sched_id sch2) "Booked" sch2).
    rewrite set_status_id, set_status_professional.
    split; [|split; [reflexivity|split]].
    + subst w2. simpl. apply elem_of_map. now exists sch2.
    + now destruct Hcov2.
    + now apply set_status_hit.
  - exact Hov.
Qed.

End TaskFacts.

(** ** Claims about fetch_availability and sync_external_schedule *)

Lemma elem_of_filter_bool {A} (f : A -> bool) (l : list A) x :
  x ∈ List.filter f l <-> x ∈ l /\ f x = true.
Proof. now rewrite !list_elem_of_In, List.filter_In. Qed.

Lemma listed_spec professional r :
  listed professional r = true
  <-> sched_professionalId r = professional /\ sched_status r = "AVAILABLE".
Proof.
  unfold listed. now rewrite andb_true_iff, !String.eqb_eq.
Qed.

Lemma fetch_paths env professional w :
  fetch_availability env professional w =
  match find_many_error env with
  | Some e => (Raise e, mkWorld (store w) (log w ++ [OpFindMany]))
  | None =>
      (Ok (mkFetchAvailabilityResponse
             (List.map to_time_slot
                (List.filter (listed professional) (schedules (store w))))),
       mkWorld (store w) (log w ++ [OpFindMany]))
  end.
Proof.
  unfold fetch_availability, Schedule_find_many, bind, issue, fail_if,
    get_store, ret, raise.
  now destruct (find_many_error env).
Qed.

(** C5 (as amended): when the database answers, [fetch_availability]
    returns the slots of the professional whose status is the string
    "AVAILABLE", each as its start, end and status, in the order in which
    the database returns them (nothing is sorted); no returned slot has
    status "Booked" or "Cancelled"; the tables are unchanged; and the
    result is the empty list when no slot of the professional has that
    status. *)
Theorem fetch_availability_lists_open_slots env professional w :
  find_many_error env = None ->
  let found := List.filter (listed professional) (schedules (store w)) in
  fetch_availability env professional w
    = (Ok (mkFetchAvailabilityResponse (List.map to_time_slot found)),
       mkWorld (store w) (log w ++ [OpFindMany]))
  /\ (forall r, r ∈ found <->
        r ∈ schedules (store w) /\ sched_professionalId r = professional
        /\ sched_status r = "AVAILABLE")
  /\ (forall ts, ts ∈ List.map to_time_slot found ->
        slot_status ts = "AVAILABLE" /\ slot_status ts <> "Booked"
        /\ slot_status ts <> "Cancelled")
  /\ ((forall r, r ∈ schedules (store w) ->
         ~ (sched_professionalId r = professional
            /\ sched_status r = "AVAILABLE")) ->
      List.map to_time_slot found = []).
Proof.
  intros Herr found. repeat split.
  - rewrite fetch_paths, Herr. reflexivity.
  - now apply elem_of_filter_bool in H.
  - apply elem_of_filter_bool in H as [_ H]. now apply listed_spec in H.
  - apply elem_of_filter_bool in H as [_ H]. now apply listed_spec in H.
  - intros (Hin & Hp & Hs). apply elem_of_filter_bool.
    split; [exact Hin|]. now apply listed_spec.
  - apply elem_of_map in H as (r & -> & Hr).
    apply elem_of_filter_bool in Hr as [_ Hr].
    now apply listed_spec in Hr.
  - apply elem_of_map in H as (r & -> & Hr).
    apply elem_of_filter_bool in Hr as [_ Hr].
    apply listed_spec in Hr as [_ Hr]. simpl. rewrite Hr. discriminate.
  - apply elem_of_map in H as (r & -> & Hr).
    apply elem_of_filter_bool in Hr as [_ Hr].
    apply listed_spec in Hr as [_ Hr]. simpl. rewrite Hr. discriminate.
  - intros Hnone. subst found.
    induction (schedules (store w)) as [|r l IH]; [reflexivity|].
    simpl. destruct (listed professional r) eqn:E.
    + apply listed_spec in E. destruct (Hnone r); [constructor|exact E].
    + apply IH. intros r' Hr'. apply Hnone. now constructor.
Qed.

Lemma sync_paths professional_id external_system_name api_key d1 d2 w :
  sync_external_schedule professional_id external_system_name api_key d1 d2 w
  = (Ok (if rejected external_system_name api_key
         then mkSyncScheduleResponse false 0
                ["Invalid API Key or External System Name"]
         else mkSyncScheduleResponse true 5 []), w).
Proof.
  unfold sync_external_schedule.
  now destruct (rejected external_system_name api_key).
Qed.

Lemma rejected_spec external_system_name api_key :
  rejected external_system_name api_key = true
  <-> api_key = "" \/ external_system_name ∉ ["SystemA"; "SystemB"].
Proof.
  unfold rejected. rewrite orb_true_iff, String.eqb_eq. simpl.
  rewrite orb_false_r, negb_true_iff, orb_false_iff, !String.eqb_neq.
  rewrite !not_elem_of_cons. split.
  - intros [H|[H1 H2]]; [now left|right]. repeat split; auto.
    apply not_elem_of_nil.
  - intros [H|(H1 & H2 & _)]; [now left|now right].
Qed.


(** C6 (as amended): the reconciliation is simulated.  For a non-empty
    API key and a recognised system, [sync_external_schedule] returns
    success = true, a synced count of 5 and no errors, whatever the slots
    of the store and of the external system are; it reads and writes no
    table, so every internal slot is left as it was. *)
Theorem sync_is_simulated
    professional_id external_system_name api_key d1 d2 w :
  api_key <> "" ->
  external_system_name ∈ ["SystemA"; "SystemB"] ->
  sync_external_schedule professional_id external_system_name api_key
    d1 d2 w = (Ok (mkSyncScheduleResponse true 5 []), w).
Proof.
  intros Hkey Hname. rewrite sync_paths.
  destruct (rejected external_system_name api_key) eqn:E; [|reflexivity].
  apply rejected_spec in E as [E|E]; contradiction.
Qed.

Section ListingAndBooking.

Variable fromisoformat : string -> Result datetime.

Lemma listed_not_covering professional professional' st en r :
  listed professional r = true -> covering professional' st en r = false.
Proof.
  intros H. apply listed_spec in H as [_ H].
  unfold covering. rewrite H. simpl. now rewrite andb_false_r.
Qed.

Lemma filter_listed_set_status professional sch (l : list Schedule) :
  NoDup (List.map sched_id l) ->
  sch ∈ l -> sched_status sch = "Available" ->
  List.filter (listed professional)
    (List.map (set_status (sched_id sch) "Booked") l)
  = List.filter (listed professional) l.
Proof.
  intros Hnd Hsch Hav.
  assert (Hrow : forall r, r ∈ l ->
            listed professional (set_status (sched_id sch) "Booked" r)
            = listed professional r
            /\ (listed professional r = true ->
                set_status (sched_id sch) "Booked" r = r)).
  { intros r Hr.
    destruct (decide (sched_id r = sched_id sch)) as [Heq|Hne].
    - assert (r = sch) as -> by
        (now apply (unique_id_same_row l _ _ Hnd)).
      unfold listed. rewrite set_status_professional.
      rewrite (set_status_hit _ _ _ eq_refl), Hav. simpl.
      rewrite !andb_false_r. split; [reflexivity|discriminate].
    - rewrite (set_status_miss _ _ _ Hne). now split. }
  clear Hnd Hsch. induction l as [|r l IH]; [reflexivity|].
  simpl. destruct (Hrow r) as [Heq Hsame]; [constructor|].
  rewrite Heq, IH by (intros r' Hr'; apply Hrow; now constructor).
  destruct (listed professional r); [|reflexivity].
  now rewrite Hsame.
Qed.

(** C9: no slot satisfies both the filter of the listing (status
    "AVAILABLE") and the filter of the booking (status "Available"); with
    unique slot ids, a call of [book_appointment] leaves the result of
    [fetch_availability] as it was; and a slot that the booking can match
    is not in the listing. *)
Theorem listing_and_booking_disjoint env env' q w professional :
  NoDup (List.map sched_id (schedules (store w))) ->
  (forall professional' st en r,
     listed professional r = true ->
     covering professional' st en r = false)
  /\ fst (fetch_availability env' professional
            (snd (book_appointment fromisoformat env q w)))
     = fst (fetch_availability env' professional w)
  /\ (forall professional' st en r,
        covering professional' st en r = true ->
        (r ∉ List.filter (listed professional) (schedules (store w)))
        /\ (forall resp w',
              fetch_availability env' professional w = (Ok resp, w') ->
              to_time_slot r ∉ availability resp)).
Proof.
  intros Hnd. split; [|split].
  - intros. eapply listed_not_covering; eassumption.
  - rewrite !fetch_paths.
    assert (Hrows :
      List.filter (listed professional)
        (schedules (store (snd (book_appointment fromisoformat env q w))))
      = List.filter (listed professional) (schedules (store w))).
    { rewrite book_try, body_paths.
      destruct (fromisoformat (req_startTime q)); [|reflexivity].
      destruct (fromisoformat (req_endTime q)); [|reflexivity].
      destruct (find_first_error env); [reflexivity|].
      destruct (List.find _ _) as [sch|] eqn:Hfind; [|reflexivity].
      simpl. destruct (create_error env); [reflexivity|].
      destruct (update_error env); [reflexivity|]. simpl.
      apply find_some_elem in Hfind as [Hin Hcov].
      apply covering_spec in Hcov as (_ & Hav & _).
      now apply filter_listed_set_status. }
    destruct (find_many_error env'); simpl; [reflexivity|].
    now rewrite Hrows.
  - intros professional' st en r Hcov. split.
    + intros Hin. apply elem_of_filter_bool in Hin as [_ Hl].
      rewrite (listed_not_covering _ _ _ _ _ Hl) in Hcov. discriminate.
    + intros resp w'. rewrite fetch_paths.
      destruct (find_many_error env'); [discriminate|].
      intros H Hin. inversion H; subst. simpl in Hin.
      apply elem_of_map in Hin as (r' & Heq & Hr').
      apply elem_of_filter_bool in Hr' as [_ Hl].
      apply listed_spec in Hl as [_ Hl].
      apply covering_spec in Hcov as (_ & Hav & _).
      unfold to_time_slot in Heq. inversion Heq. congruence.
Qed.

End ListingAndBooking.

(** ** The claims on the example data *)

Lemma one_slot_consistent : consistent (store Ex.one_slot).
Proof.
  constructor; simpl.
  - repeat constructor. apply not_elem_of_nil.
  - intros r1 r2 H1 H2 _ Hne.
    apply list_elem_of_singleton in H1 as ->.
    apply list_elem_of_singleton in H2 as ->. now destruct Hne.
  - intros a Ha. inversion Ha.
  - intros i j a1 a2 H. discriminate H.
Qed.

(** A timestamp that does not parse: the response carries the text of
    the [ValueError] and no database call is issued. *)
Example book_invalid_timestamp :
  book_appointment Iso.iso_seconds (healthy "a1")
    (Ex.request "A" "tomorrow" "2024-01-01T11:00:00") Ex.one_slot
  = (Ok (failed (Ex.request "A" "tomorrow" "2024-01-01T11:00:00")
           "Invalid isoformat string: 'tomorrow'"), Ex.one_slot).
Proof. reflexivity. Qed.

(** The example of the specification: A books the hour, and the request
    of B for its first half, issued right after, finds no open slot. *)
Example book_then_no_availability :
  let first := book_appointment Iso.iso_seconds (healthy "a1") Ex.hour_A
                 Ex.one_slot in
  fst first = Ok (booked Ex.hour_A
                    (mkAppointment "a1" "s1" "A" Ex.t1000 Ex.t1100))
  /\ store (snd first) = store Ex.booked_slot
  /\ fst (book_appointment Iso.iso_seconds (healthy "a2") Ex.half_hour_B
            (snd first))
     = Ok (not_available Ex.half_hour_B).
Proof. repeat split; vm_compute; reflexivity. Qed.

(** C1, counterexample: two open slots of one professional cover the same
    two hours; the requests of A for 10:00-11:00 and of B for 10:00-10:30
    both succeed, one against each slot, and the two Booked appointments
    overlap. *)
Lemma two_open_slots_double_booked :
  let first := book_appointment Iso.iso_seconds (healthy "a1") Ex.hour_A
                 Ex.two_slots in
  let second := book_appointment Iso.iso_seconds (healthy "a2")
                  Ex.half_hour_B (snd first) in
  no_double_booking (store Ex.two_slots)
  /\ (exists r1, fst first = Ok r1 /\ status r1 = "Success")
  /\ (exists r2, fst second = Ok r2 /\ status r2 = "Success")
  /\ ~ no_double_booking (store (snd second)).
Proof.
  intros first second. split; [|split; [|split]].
  - intros i j a1 a2 p _ H. discriminate H.
  - eexists. split; [vm_compute; reflexivity|reflexivity].
  - eexists. split; [vm_compute; reflexivity|reflexivity].
  - assert (E : store (snd second)
              = mkStore
                  [mkSchedule "s1" "P" Ex.t1000 Ex.t1200 "Booked";
                   mkSchedule "s2" "P" Ex.t1000 Ex.t1200 "Booked"]
                  [mkAppointment "a1" "s1" "A" Ex.t1000 Ex.t1100;
                   mkAppointment "a2" "s2" "B" Ex.t1000 1704105000%Z])
      by (vm_compute; reflexivity).
    rewrite E. intros H.
    apply (H 0 1 (mkAppointment "a1" "s1" "A" Ex.t1000 Ex.t1100)
             (mkAppointment "a2" "s2" "B" Ex.t1000 1704105000%Z) "P").
    + discriminate.
    + reflexivity.
    + reflexivity.
    + exists (mkSchedule "s1" "P" Ex.t1000 Ex.t1200 "Booked").
      repeat split. simpl. repeat constructor.
    + exists (mkSchedule "s2" "P" Ex.t1000 Ex.t1200 "Booked").
      repeat split. simpl. repeat constructor.
    + unfold appts_overlap, overlaps, Ex.t1000, Ex.t1100. simpl. lia.
Qed.

Lemma morning_consistent : consistent (store Ex.morning).
Proof.
  constructor; simpl.
  - repeat constructor.
    + intros H. apply list_elem_of_singleton in H. discriminate H.
    + apply not_elem_of_nil.
  - intros r1 r2 H1 H2 _ Hne.
    apply elem_of_cons in H1 as [->|H1];
      apply elem_of_cons in H2 as [->|H2];
      try apply list_elem_of_singleton in H1 as ->;
      try apply list_elem_of_singleton in H2 as ->;
      try (now destruct Hne);
      unfold slots_overlap, overlaps, Ex.t1000, Ex.t1100, Ex.t1200;
      simpl; lia.
  - intros a Ha. apply list_elem_of_singleton in Ha as ->.
    exists (mkSchedule "s1" "P" Ex.t1000 Ex.t1100 "Booked").
    unfold Ex.t1000, Ex.t1100. simpl. repeat split; try lia.
    repeat constructor.
  - intros i j a1 a2 H1 H2 _.
    apply list_lookup_singleton_Some in H1 as [-> _].
    apply list_lookup_singleton_Some in H2 as [-> _]. reflexivity.
Qed.

Lemma booking_preserves_consistency_witness :
  let w' := snd (run_alone Iso.iso_seconds (healthy "a2") Ex.next_hour_B
                   Ex.morning) in
  appointments (store w')
  = [mkAppointment "a1" "s1" "A" Ex.t1000 Ex.t1100;
     mkAppointment "a2" "s2" "B" Ex.t1100 Ex.t1200]
  /\ consistent (store w') /\ no_double_booking (store w').
Proof.
  split; [reflexivity|].
  apply (booking_preserves_consistency Iso.iso_seconds (healthy "a2")
           Ex.next_hour_B Ex.morning
           (fst (run_alone Iso.iso_seconds (healthy "a2") Ex.next_hour_B
                   Ex.morning))).
  - exact morning_consistent.
  - reflexivity.
  - apply surjective_pairing.
Defined.

(** C2, counterexample: one open slot; the event loop lets the two calls
    take their steps in turn.  Both lookups return the slot before either
    call has written, both calls report "Success", and the slot carries
    two overlapping appointments. *)
Lemma interleaved_bookings_both_succeed :
  let '(t1, t2, w') :=
    interleave Iso.iso_seconds [true; false; true; false; true; false]
      (healthy "a1") (healthy "a2")
      (Pending Ex.hour_A) (Pending Ex.half_hour_B) Ex.one_slot in
  consistent (store Ex.one_slot)
  /\ req_professionalId Ex.hour_A = req_professionalId Ex.half_hour_B
  /\ overlaps Ex.t1000 Ex.t1100 Ex.t1000 1704105000%Z
  /\ succeeded t1 = true /\ succeeded t2 = true
  /\ appointments (store w')
     = [mkAppointment "a1" "s1" "A" Ex.t1000 Ex.t1100;
        mkAppointment "a2" "s1" "B" Ex.t1000 1704105000%Z]
  /\ ~ no_double_booking (store w').
Proof.
  vm_compute interleave.
  split; [exact one_slot_consistent|].
  split; [reflexivity|]. split; [unfold overlaps; vm_compute; auto|].
  split; [reflexivity|]. split; [reflexivity|]. split; [reflexivity|].
  simpl. intros H.
  apply (H 0 1 (mkAppointment "a1" "s1" "A" Ex.t1000 Ex.t1100)
           (mkAppointment "a2" "s1" "B" Ex.t1000 1704105000%Z) "P").
  - discriminate.
  - reflexivity.
  - reflexivity.
  - exists (mkSchedule "s1" "P" Ex.t1000 Ex.t1100 "Booked").
    repeat split. simpl. repeat constructor.
  - exists (mkSchedule "s1" "P" Ex.t1000 Ex.t1100 "Booked").
    repeat split. simpl. repeat constructor.
  - unfold appts_overlap, overlaps, Ex.t1000, Ex.t1100. simpl. lia.
Qed.

Lemma sequential_overlapping_bookings_witness :
  let first := run_alone Iso.iso_seconds (healthy "a1") Ex.hour_A
                 Ex.one_slot in
  let second := run_alone Iso.iso_seconds (healthy "a2") Ex.half_hour_B
                  (snd first) in
  succeeded (fst first) = true
  /\ succeeded (fst first) && succeeded (fst second) = false.
Proof.
  intros first second. split; [reflexivity|].
  apply (sequential_overlapping_bookings Iso.iso_seconds
           (healthy "a1") (healthy "a2") Ex.hour_A Ex.half_hour_B
           Ex.one_slot Ex.t1000 Ex.t1100 Ex.t1000 1704105000%Z
           (fst first) (snd first) (fst second) (snd second)).
  - exact one_slot_consistent.
  - reflexivity.
  - reflexivity.
  - reflexivity.
  - reflexivity.
  - reflexivity.
  - unfold overlaps. vm_compute. auto.
  - apply surjective_pairing.
  - apply surjective_pairing.
Defined.



(** C4, counterexample: the request from 10:45 back to 10:15 is not
    rejected.  The slot lookup is issued, the open slot from 10:00 to
    11:00 matches, an appointment is created and the slot is marked
    Booked. *)
Lemma reversed_window_is_booked :
  let result := book_appointment Iso.iso_seconds (healthy "a1")
                  Ex.reversed_A Ex.one_slot in
  Iso.iso_seconds (req_startTime Ex.reversed_A) = Ok 1704105900%Z
  /\ Iso.iso_seconds (req_endTime Ex.reversed_A) = Ok 1704104100%Z
  /\ (1704105900 >= 1704104100)%Z
  /\ (exists r, fst result = Ok r /\ status r = "Success"
        /\ errorMessage r = None)
  /\ store (snd result)
     = mkStore [mkSchedule "s1" "P" Ex.t1000 Ex.t1100 "Booked"]
         [mkAppointment "a1" "s1" "A" 1704105900%Z 1704104100%Z]
  /\ store (snd result) <> store Ex.one_slot
  /\ log (snd result)
     = [OpFindFirst;
        OpCreate (mkAppointment "a1" "s1" "A" 1704105900%Z 1704104100%Z);
        OpUpdate "s1" "Booked"].
Proof.
  intros result.
  split; [reflexivity|]. split; [reflexivity|]. split; [lia|].
  split; [eexists; split; [vm_compute; reflexivity|now split]|].
  split; [vm_compute; reflexivity|].
  split; [|vm_compute; reflexivity].
  intros H. vm_compute in H. discriminate H.
Qed.

Lemma reversed_window_is_looked_up_witness :
  book_appointment Iso.iso_seconds (healthy "a1") Ex.reversed_A Ex.one_slot
  = (Ok (booked Ex.reversed_A
           (mkAppointment "a1" "s1" "A" 1704105900%Z 1704104100%Z)),
     marked_booked (mkAppointment "a1" "s1" "A" 1704105900%Z 1704104100%Z)
       "s1" Ex.one_slot).
Proof.
  apply (reversed_window_is_looked_up Iso.iso_seconds (healthy "a1")
           Ex.reversed_A Ex.one_slot 1704105900%Z 1704104100%Z);
    [reflexivity|reflexivity|lia|reflexivity|reflexivity|reflexivity].
Defined.

(** C5, counterexample: the table holds the slot from 11:00 before the
    slot from 10:00; the listing returns them in that order. *)
Lemma listing_not_sorted :
  exists resp w',
    fetch_availability (healthy "") "P" Ex.late_first = (Ok resp, w')
    /\ availability resp
       = [mkTimeSlot Ex.t1100 Ex.t1200 "AVAILABLE";
          mkTimeSlot Ex.t1000 Ex.t1100 "AVAILABLE"]
    /\ sorted_by_start (availability resp) = false.
Proof.
  eexists. eexists. split; [vm_compute; reflexivity|].
  split; reflexivity.
Qed.

Lemma fetch_availability_lists_open_slots_witness :
  fetch_availability (healthy "") "P" Ex.late_first
  = (Ok (mkFetchAvailabilityResponse
           (List.map to_time_slot
              (List.filter (listed "P")
                 (schedules (store Ex.late_first))))),
     mkWorld (store Ex.late_first) (log Ex.late_first ++ [OpFindMany])).
Proof.
  apply (fetch_availability_lists_open_slots (healthy "") "P" Ex.late_first).
  reflexivity.
Defined.

(** C6, counterexample: the slot from 10:00 to 11:00 is Booked in the
    store; the sync of that day with "SystemA" reports five synced
    appointments and no error, not one synced slot and one conflict. *)
Lemma sync_reports_no_conflict :
  sync_external_schedule "P" "SystemA" "key" 1704067200%Z 1704153600%Z
    Ex.booked_slot
  = (Ok (mkSyncScheduleResponse true 5 []), Ex.booked_slot)
  /\ ~ (exists r w',
          sync_external_schedule "P" "SystemA" "key"
            1704067200%Z 1704153600%Z Ex.booked_slot = (Ok r, w')
          /\ synced_appointments_count r = 1%Z
          /\ length (errors r) = 1).
Proof.
  split; [reflexivity|].
  intros (r & w' & H & Hcount & _).
  vm_compute in H. inversion H; subst. discriminate Hcount.
Qed.

Lemma sync_is_simulated_witness :
  sync_external_schedule "P" "SystemA" "key" 1704067200%Z 1704153600%Z
    Ex.booked_slot
  = (Ok (mkSyncScheduleResponse true 5 []), Ex.booked_slot).
Proof.
  apply (sync_is_simulated "P" "SystemA" "key" 1704067200%Z 1704153600%Z
           Ex.booked_slot).
  - discriminate.
  - repeat constructor.
Defined.

Lemma no_covering_slot_not_available_witness :
  book_appointment_body Iso.iso_seconds (healthy "a2") Ex.half_hour_B
    Ex.booked_slot
  = (Ok (not_available Ex.half_hour_B), looked_up Ex.booked_slot).
Proof.
  apply (no_covering_slot_not_available Iso.iso_seconds (healthy "a2")
           Ex.half_hour_B Ex.booked_slot Ex.t1000 1704105000%Z).
  - reflexivity.
  - reflexivity.
  - reflexivity.
  - intros r Hr (_ & Hs & _).
    apply list_elem_of_singleton in Hr. subst r. discriminate Hs.
Defined.

Lemma listing_and_booking_disjoint_witness :
  fst (fetch_availability (healthy "") "P"
         (snd (book_appointment Iso.iso_seconds (healthy "a1") Ex.hour_A
                 Ex.one_slot)))
  = fst (fetch_availability (healthy "") "P" Ex.one_slot).
Proof.
  apply (listing_and_booking_disjoint Iso.iso_seconds (healthy "a1")
           (healthy "") Ex.hour_A Ex.one_slot "P").
  simpl. repeat constructor. apply not_elem_of_nil.
Defined.

(** ** Further properties of the booking services *)

Section BookingMore.

Variable fromisoformat : string -> Result datetime.

(** X1: the handler of [/schedule/book] never reaches its [except]
    clause: whatever the input and the state of the database, it returns
    the response of [book_appointment] (a failed booking is a response
    with status "Failure", not a 500). *)
Theorem api_book_returns_service_response
    env professionalId_ clientId_ startTime_ endTime_ details_ w :
  exists r w',
    book_appointment fromisoformat env
      (mkBookingRequest professionalId_ clientId_ startTime_ endTime_
         details_) w = (Ok r, w')
    /\ api_post_book_appointment fromisoformat env professionalId_ clientId_
         startTime_ endTime_ details_ w = (Ok (inl r), w').
Proof.
  destruct (book_returns fromisoformat env
              (mkBookingRequest professionalId_ clientId_ startTime_
                 endTime_ details_) w) as (r & w' & H).
  exists r, w'. split; [exact H|].
  unfold api_post_book_appointment, try_except, bind. now rewrite H.
Qed.

(** X4: a response with status "Success" means that a slot of the
    professional that was Available and covers the parsed window was
    found, that one appointment for that window and client was appended
    under the returned bookingId, and that every row of that slot is now
    Booked. *)
Theorem success_means_booked env q w r w' :
  book_appointment fromisoformat env q w = (Ok r, w') ->
  status r = "Success" ->
  exists st en sch,
    fromisoformat (req_startTime q) = Ok st
    /\ fromisoformat (req_endTime q) = Ok en
    /\ sch ∈ schedules (store w)
    /\ covers_available (req_professionalId q) st en sch
    /\ bookingId r = new_appointment_id env
    /\ appointments (store w')
       = (appointments (store w)
          ++ [mkAppointment (bookingId r) (sched_id sch) (req_clientId q)
                st en])%list
    /\ (forall r', r' ∈ schedules (store w') ->
          sched_id r' = sched_id sch -> sched_status r' = "Booked").
Proof.
  intros Hbook Hs.
  destruct (success_path _ _ _ _ _ _ Hbook Hs)
    as (st & en & sch & Hst & Hen & Hfind & -> & ->).
  apply find_some_elem in Hfind as [Hin Hcov].
  apply covering_spec in Hcov.
  exists st, en, sch. simpl. repeat split; auto; try apply Hcov.
  intros r' Hr' Hid. apply elem_of_map in Hr' as (r0 & -> & _).
  rewrite set_status_id in Hid. now apply set_status_hit.
Qed.

Lemma map_set_status_frame id s (l : list Schedule) :
  List.map slot_frame (List.map (set_status id s) l) = List.map slot_frame l.
Proof.
  rewrite List.map_map. apply List.map_ext. intros r.
  unfold slot_frame.
  now rewrite set_status_id, set_status_professional, set_status_start,
    set_status_end.
Qed.

Lemma set_status_status id s r :
  sched_status (set_status id s r) = sched_status r
  \/ sched_status (set_status id s r) = s.
Proof. unfold set_status. destruct (String.eqb _ _); auto. Qed.

(** X5: what a call of [book_appointment] never does.  It removes and
    changes no appointment and adds at most one; it adds and removes no
    slot and changes no id, professional or window of a slot; and the
    status of a slot is either what it was or "Booked". *)
Theorem book_appointment_frame env q w :
  let w' := snd (book_appointment fromisoformat env q w) in
  (exists added,
     appointments (store w') = (appointments (store w) ++ added)%list
     /\ length added <= 1)
  /\ List.map slot_frame (schedules (store w'))
     = List.map slot_frame (schedules (store w))
  /\ (forall i r', schedules (store w') !! i = Some r' ->
        exists r0, schedules (store w) !! i = Some r0
          /\ (sched_status r' = sched_status r0
              \/ sched_status r' = "Booked")).
Proof.
  assert (Hsame :
    (exists added,
       appointments (store w) = (appointments (store w) ++ added)%list
       /\ length added <= 1)
    /\ List.map slot_frame (schedules (store w))
       = List.map slot_frame (schedules (store w))
    /\ (forall i r', schedules (store w) !! i = Some r' ->
          exists r0, schedules (store w) !! i = Some r0
            /\ (sched_status r' = sched_status r0
                \/ sched_status r' = "Booked"))).
  { split; [exists []; split; [now rewrite app_nil_r|simpl; lia]|].
    split; [reflexivity|]. intros i r' H. exists r'. auto. }
  cbv zeta. rewrite book_try, body_paths.
  destruct (fromisoformat (req_startTime q)); [|exact Hsame].
  destruct (fromisoformat (req_endTime q)); [|exact Hsame].
  destruct (find_first_error env); [exact Hsame|].
  destruct (List.find _ _) as [sch|]; [|exact Hsame].
  simpl. destruct (create_error env); [exact Hsame|].
  destruct (update_error env); simpl.
  - split; [eexists; split; [reflexivity|simpl; lia]|].
    split; [reflexivity|]. intros i r' H. exists r'. auto.
  - split; [eexists; split; [reflexivity|simpl; lia]|].
    split; [apply map_set_status_frame|].
    intros i r' H.
    change (List.map (set_status (sched_id sch) "Booked")
              (schedules (store w)))
      with (set_status (sched_id sch) "Booked" <$> schedules (store w)) in H.
    rewrite list_lookup_fmap in H.
    destruct (schedules (store w) !! i) as [r0|]; [|discriminate H].
    simpl in H. inversion H; subst. exists r0. split; [reflexivity|].
    apply set_status_status.
Qed.

Lemma filter_id_set_status id id' s (l : list Schedule) :
  id' <> id ->
  List.filter (fun r => String.eqb (sched_id r) id)
    (List.map (set_status id' s) l)
  = List.filter (fun r => String.eqb (sched_id r) id) l.
Proof.
  intros Hne. induction l as [|r l IH]; [reflexivity|].
  simpl. rewrite set_status_id, IH.
  destruct (String.eqb_spec (sched_id r) id) as [Heq|]; [|reflexivity].
  rewrite set_status_miss; [reflexivity|congruence].
Qed.

Lemma unavailable_rows id s s' :
  rows_of id s' = rows_of id s -> unavailable id s -> unavailable id s'.
Proof.
  intros Heq Hun r Hr Hid.
  assert (Hin : r ∈ rows_of id s').
  { apply elem_of_filter_bool. split; [exact Hr|]. now apply String.eqb_eq. }
  rewrite Heq in Hin. apply elem_of_filter_bool in Hin as [Hin _].
  now apply (Hun r).
Qed.

Lemma appointments_of_snoc id s a :
  appt_scheduleId a <> id ->
  appointments_of id (mkStore (schedules s) (appointments s ++ [a]))
  = appointments_of id s.
Proof.
  intros Hne. unfold appointments_of. simpl.
  rewrite List.filter_app. simpl.
  destruct (String.eqb_spec (appt_scheduleId a) id); [contradiction|].
  apply app_nil_r.
Qed.

(** A step of a call that is not about to write to the slot [id], taken
    when no row of that slot is Available, leaves the slot alone, and the
    call is still not about to write to it. *)
Lemma step_leaves_unavailable_slot env t w id :
  unavailable id (store w) ->
  target t <> Some id ->
  target (fst (step fromisoformat env t w)) <> Some id
  /\ rows_of id (store (snd (step fromisoformat env t w)))
     = rows_of id (store w)
  /\ appointments_of id (store (snd (step fromisoformat env t w)))
     = appointments_of id (store w).
Proof.
  intros Hun Ht.
  destruct t as [q|q st en sch|q a sch|r]; unfold step, settle; simpl.
  - unfold bind, lift.
    destruct (fromisoformat (req_startTime q)) as [st|];
      [|simpl; now repeat split].
    destruct (fromisoformat (req_endTime q)) as [en|];
      [|simpl; now repeat split].
    unfold Schedule_find_first, bind, issue, fail_if, get_store, ret, raise.
    destruct (find_first_error env); simpl; [now repeat split|].
    destruct (List.find _ _) as [sch|] eqn:Hfind; simpl;
      [|now repeat split].
    split; [|now split].
    apply find_some_elem in Hfind as [Hin Hcov].
    apply covering_spec in Hcov as (_ & Hav & _).
    intros Heq. inversion Heq as [Hid]. now apply (Hun sch Hin Hid).
  - assert (Hne : sched_id sch <> id) by (simpl in Ht; congruence).
    unfold Appointment_create, bind, issue, fail_if, get_store, put_store,
      ret, raise.
    destruct (create_error env); simpl; [now repeat split|].
    split; [exact Ht|]. split; [reflexivity|].
    now apply (appointments_of_snoc id (store w)).
  - assert (Hne : sched_id sch <> id) by (simpl in Ht; congruence).
    unfold Schedule_update, bind, issue, fail_if, get_store, put_store,
      ret, raise.
    destruct (update_error env); simpl; [now repeat split|].
    split; [discriminate|]. split; [|reflexivity].
    unfold rows_of. simpl. now apply filter_id_set_status.
  - now repeat split.
Qed.

(** X6: a slot none of whose rows is Available is out of reach of the
    calls that have not looked it up before, under every schedule of the
    event loop: two such calls in flight, whatever they request and
    whatever fails, change no row of the slot and add no appointment
    against it. *)
Theorem unavailable_slot_untouched sched env1 env2 t1 t2 w id :
  unavailable id (store w) ->
  target t1 <> Some id ->
  target t2 <> Some id ->
  let '(_, _, w') := interleave fromisoformat sched env1 env2 t1 t2 w in
  rows_of id (store w') = rows_of id (store w)
  /\ appointments_of id (store w') = appointments_of id (store w).
Proof.
  revert t1 t2 w. induction sched as [|b sched IH]; intros t1 t2 w Hun H1 H2.
  - now split.
  - destruct b; simpl.
    + destruct (step_leaves_unavailable_slot env1 t1 w id Hun H1)
        as (Ht & Hrows & Happ).
      destruct (step fromisoformat env1 t1 w) as [t1' w1]. simpl in *.
      specialize (IH t1' t2 w1 (unavailable_rows _ _ _ Hrows Hun) Ht H2).
      destruct (interleave _ _ _ _ _ _ _) as [[u1 u2] w'].
      destruct IH as [IHr IHa]. split; congruence.
    + destruct (step_leaves_unavailable_slot env2 t2 w id Hun H2)
        as (Ht & Hrows & Happ).
      destruct (step fromisoformat env2 t2 w) as [t2' w1]. simpl in *.
      specialize (IH t1 t2' w1 (unavailable_rows _ _ _ Hrows Hun) H1 Ht).
      destruct (interleave _ _ _ _ _ _ _) as [[u1 u2] w'].
      destruct IH as [IHr IHa]. split; congruence.
Qed.

(** X7: a start or end time that does not parse is reported in the
    response with the text of the parser, the start time first, and no
    database call is issued: the tables and the log are as they were. *)
Theorem unparsable_time_no_database_call env q w e :
  fromisoformat (req_startTime q) = Raise e
  \/ (exists st, fromisoformat (req_startTime q) = Ok st
        /\ fromisoformat (req_endTime q) = Raise e) ->
  book_appointment fromisoformat env q w = (Ok (failed q e), w).
Proof.
  intros [H|(st & Hst & Hen)]; rewrite book_try, body_paths.
  - now rewrite H.
  - now rewrite Hst, Hen.
Qed.

Lemma step_steps_left env t w :
  steps_left (fst (step fromisoformat env t w)) <= pred (steps_left t).
Proof.
  destruct t as [q|q st en sch|q a sch|r]; unfold step, settle; simpl.
  - destruct (bind _ _ w) as [[t'|e] w'] eqn:E; simpl; [|lia].
    revert E. unfold bind, lift.
    destruct (fromisoformat (req_startTime q)); [|discriminate].
    destruct (fromisoformat (req_endTime q)); [|discriminate].
    unfold Schedule_find_first, bind, issue, fail_if, get_store, ret, raise.
    destruct (find_first_error env); simpl; [discriminate|].
    destruct (List.find _ _); intros H; inversion H; simpl; lia.
  - destruct (bind _ _ w) as [[t'|e] w'] eqn:E; simpl; [|lia].
    revert E.
    unfold Appointment_create, bind, issue, fail_if, get_store, put_store,
      ret, raise.
    destruct (create_error env); simpl; [discriminate|].
    intros H; inversion H; simpl; lia.
  - destruct (bind _ _ w) as [[t'|e] w'] eqn:E; simpl; [|lia].
    revert E.
    unfold Schedule_update, bind, issue, fail_if, get_store, put_store,
      ret, raise.
    destruct (update_error env); simpl; [discriminate|].
    intros H; inversion H; simpl; lia.
  - lia.
Qed.

(** X8: under every schedule of the event loop each of two calls in
    flight is as many database calls nearer to its return as it was given
    turns; a call that was given three turns has returned. *)
Theorem interleaved_calls_return sched env1 env2 t1 t2 w :
  let '(t1', t2', _) := interleave fromisoformat sched env1 env2 t1 t2 w in
  steps_left t1' <= steps_left t1 - length (List.filter id sched)
  /\ steps_left t2' <= steps_left t2 - length (List.filter negb sched).
Proof.
  revert t1 t2 w. induction sched as [|b sched IH]; intros t1 t2 w.
  - simpl. lia.
  - destruct b; simpl.
    + pose proof (step_steps_left env1 t1 w) as Hs.
      destruct (step fromisoformat env1 t1 w) as [t1' w'] eqn:E.
      simpl in Hs. specialize (IH t1' t2 w').
      destruct (interleave _ _ _ _ _ _ _) as [[u1 u2] w'']. lia.
    + pose proof (step_steps_left env2 t2 w) as Hs.
      destruct (step fromisoformat env2 t2 w) as [t2' w'] eqn:E.
      simpl in Hs. specialize (IH t1 t2' w').
      destruct (interleave _ _ _ _ _ _ _) as [[u1 u2] w'']. lia.
Qed.

End BookingMore.

(** X2: the handler of [/schedule/availability] returns the listing of
    [fetch_availability] when the query succeeds.  When the query fails
    it enters its [except] clause, where building the [Response] from a
    [dict] raises: the handler raises and returns no status-500 response.
    The tables are unchanged either way. *)
Theorem api_fetch_availability_outcomes env professional w :
  api_get_fetch_availability env professional w
  = (match find_many_error env with
     | Some _ => Raise "'dict' object has no attribute 'encode'"
     | None =>
         Ok (inl (mkFetchAvailabilityResponse
                    (List.map to_time_slot
                       (List.filter (listed professional)
                          (schedules (store w))))))
     end,
     mkWorld (store w) (log w ++ [OpFindMany])).
Proof.
  unfold api_get_fetch_availability, try_except, bind.
  rewrite fetch_paths. now destruct (find_many_error env).
Qed.

(** X3: the handler of [/schedule/sync] never reaches its [except]
    clause: it returns the response of [sync_external_schedule], a
    rejection included, and leaves the world as it was. *)
Theorem api_sync_returns_service_response
    professional_id external_system_name api_key d1 d2 w :
  exists r,
    sync_external_schedule professional_id external_system_name api_key
      d1 d2 w = (Ok r, w)
    /\ api_post_sync_external_schedule professional_id external_system_name
         api_key d1 d2 w = (Ok (inl r), w).
Proof.
  eexists. split; [apply sync_paths|].
  unfold api_post_sync_external_schedule, try_except, bind.
  now rewrite sync_paths.
Qed.

(** ** Properties of the user services *)
Module UserFacts.
Import UserDb.

Lemma find_email_none email (l : list User) :
  List.find (fun u => String.eqb (user_email u) email) l = None
  <-> email ∉ List.map user_email l.
Proof.
  rewrite find_none_iff. split.
  - intros H Hin. apply elem_of_map in Hin as (u & -> & Hu).
    specialize (H u Hu). now rewrite String.eqb_refl in H.
  - intros H u Hu. apply String.eqb_neq. intros Heq. apply H.
    apply elem_of_map. now exists u.
Qed.

Lemma find_email_some email (l : list User) u :
  List.find (fun u => String.eqb (user_email u) email) l = Some u ->
  u ∈ l /\ user_email u = email.
Proof.
  intros H. apply find_some_elem in H as [Hin Heq].
  now apply String.eqb_eq in Heq.
Qed.

Lemma find_email_snoc email (l : list User) u :
  List.find (fun u => String.eqb (user_email u) email) l = None ->
  user_email u = email ->
  List.find (fun u => String.eqb (user_email u) email) (l ++ [u]) = Some u.
Proof.
  intros Hnone Heq. induction l as [|x l IH]; simpl in *.
  - now rewrite Heq, String.eqb_refl.
  - destruct (String.eqb (user_email x) email); [discriminate|]. now apply IH.
Qed.

Section Facts.

Variable hash : string -> string -> Outcome string.
Variable verify : string -> string -> Outcome bool.
Variable jwt_encode : gmap string Login.Claim -> string -> string -> string.
Variable http_exception_str : Z -> string -> string.

Lemma registration_paths env email password first_name last_name role d :
  Registration.user_registration hash env email password first_name
    last_name role d =
  match find_unique_error env with
  | Some e => (Throw (Exception e), d)
  | None =>
    match List.find (fun u => String.eqb (user_email u) email) (users d) with
    | Some _ =>
        (Return (Registration.mkUserRegistrationResponse "" "" role
                   "Email already in use."), d)
    | None =>
      match hash (salt env) password with
      | Throw e => (Throw e, d)
      | Return hashed =>
        let u := mkUser (new_user_id env) email hashed role (utcnow env)
                   (utcnow env) in
        let p := mkProfile (new_profile_id env) first_name last_name
                   (new_user_id env) in
        match user_create_error env with
        | Some e => (Throw (Exception e), d)
        | None =>
          match profile_create_error env with
          | Some e =>
              (Throw (Exception e), mkDb (users d ++ [u]) (profiles d))
          | None =>
              (Return (Registration.mkUserRegistrationResponse
                         (new_user_id env) email role
                         "User successfully registered."),
               mkDb (users d ++ [u]) (profiles d ++ [p]))
          end
        end
      end
    end
  end.
Proof.
  unfold Registration.user_registration, User_find_unique_email,
    User_create, Profile_create, ubind, ulift, db_fails, get_db, put_db,
    uret, throw.
  destruct (find_unique_error env); [reflexivity|]. simpl.
  destruct (List.find _ _); [reflexivity|].
  destruct (hash (salt env) password); [|reflexivity]. simpl.
  destruct (user_create_error env); [reflexivity|]. simpl.
  destruct (profile_create_error env); reflexivity.
Qed.

Lemma login_paths env email password d :
  Login.user_login verify jwt_encode env email password d =
  match find_unique_error env with
  | Some e => (Throw (Exception e), d)
  | None =>
    match List.find (fun u => String.eqb (user_email u) email) (users d) with
    | None =>
        (Throw (HTTPException 404
                  "prisma.models.User with this email does not exist"), d)
    | Some u =>
      match verify password (user_hashedPassword u) with
      | Throw e => (Throw e, d)
      | Return false =>
          (Return (Login.mkUserLoginResponse false None
                     "Incorrect password"), d)
      | Return true =>
          (Return (Login.mkUserLoginResponse true
                     (Some (Login.create_access_token jwt_encode env
                              (<["sub" := Login.ClaimStr (user_email u)]> ∅)))
                     "Login successful"), d)
      end
    end
  end.
Proof.
  unfold Login.user_login, Login.verify_password, User_find_unique_email,
    ubind, ulift, db_fails, get_db, uret, throw.
  destruct (find_unique_error env); [reflexivity|]. simpl.
  destruct (List.find _ _) as [u|]; [|reflexivity].
  destruct (verify password (user_hashedPassword u)) as [[|]|];
    reflexivity.
Qed.

(** X9: registering an email that a user already has changes nothing
    and answers with the message "Email already in use." and an empty id
    and email. *)
Theorem registration_existing_email
    env email password first_name last_name role d u :
  find_unique_error env = None ->
  u ∈ users d -> user_email u = email ->
  Registration.user_registration hash env email password first_name
    last_name role d
  = (Return (Registration.mkUserRegistrationResponse "" "" role
               "Email already in use."), d).
Proof.
  intros Herr Hin Heq. rewrite registration_paths, Herr.
  destruct (List.find _ _) eqn:Hfind; [reflexivity|].
  apply find_email_none in Hfind. destruct Hfind.
  apply elem_of_map. now exists u.
Qed.

(** X10: [user_registration] keeps the emails of the users distinct,
    whatever fails on the way. *)
Theorem registration_keeps_emails_unique
    env email password first_name last_name role d :
  NoDup (List.map user_email (users d)) ->
  NoDup (List.map user_email
           (users (snd (Registration.user_registration hash env email
                          password first_name last_name role d)))).
Proof.
  intros Hnd. rewrite registration_paths.
  destruct (find_unique_error env); [exact Hnd|].
  destruct (List.find _ _) eqn:Hfind; [exact Hnd|].
  destruct (hash (salt env) password) as [hashed|]; [|exact Hnd]. simpl.
  destruct (user_create_error env); [exact Hnd|].
  apply find_email_none in Hfind.
  assert (Hnew : NoDup (List.map user_email
                          (users d ++ [mkUser (new_user_id env) email hashed
                                         role
                                         (utcnow env) (utcnow env)]))).
  { rewrite List.map_app. simpl. apply NoDup_app. split; [exact Hnd|].
    split.
    - intros x Hx Hx'. apply list_elem_of_singleton in Hx'. now subst x.
    - apply NoDup_singleton. }
  destruct (profile_create_error env); exact Hnew.
Qed.

(** X11: a user who registered can log in.  After a registration of a
    new email that got as far as creating the user, a login with the same
    email and password succeeds, with a token for that email, when the
    password library verifies the hash it made. *)
Theorem register_then_login
    env env' email password first_name last_name role d hashed :
  find_unique_error env = None ->
  user_create_error env = None ->
  email ∉ List.map user_email (users d) ->
  hash (salt env) password = Return hashed ->
  verify password hashed = Return true ->
  find_unique_error env' = None ->
  let d' := snd (Registration.user_registration hash env email password
                   first_name last_name role d) in
  Login.user_login verify jwt_encode env' email password d'
  = (Return (Login.mkUserLoginResponse true
               (Some (Login.create_access_token jwt_encode env'
                        (<["sub" := Login.ClaimStr email]> ∅)))
               "Login successful"), d').
Proof.
  intros Hf Hc Hnew Hh Hv Hf' d'.
  apply find_email_none in Hnew.
  assert (Hfind :
    List.find (fun u => String.eqb (user_email u) email) (users d')
    = Some (mkUser (new_user_id env) email hashed role (utcnow env)
              (utcnow env))).
  { subst d'. rewrite registration_paths, Hf, Hnew, Hh. simpl. rewrite Hc.
    destruct (profile_create_error env); simpl;
      now apply find_email_snoc. }
  rewrite login_paths, Hf', Hfind. simpl. now rewrite Hv.
Qed.

(** X12: a login succeeds exactly when the lookup succeeds, a user has
    the email and the password verifies against the stored hash; a
    token is issued with a successful login only; and a login changes
    no table. *)
Theorem login_succeeds_iff env email password d :
  snd (Login.user_login verify jwt_encode env email password d) = d
  /\ ((exists r, fst (Login.user_login verify jwt_encode env email
                        password d) = Return r
                 /\ Login.success r = true)
      <-> (find_unique_error env = None
           /\ exists u,
                List.find (fun u => String.eqb (user_email u) email)
                  (users d) = Some u
                /\ verify password (user_hashedPassword u) = Return true))
  /\ (forall r, fst (Login.user_login verify jwt_encode env email
                       password d) = Return r ->
        (Login.success r = true <-> is_Some (Login.token r))).
Proof.
  rewrite login_paths.
  destruct (find_unique_error env) as [e|].
  { split; [reflexivity|]. split; [split|discriminate].
    - intros (r & H & _). discriminate H.
    - intros [H _]. discriminate H. }
  destruct (List.find _ _) as [u|].
  2:{ split; [reflexivity|]. split; [split|discriminate].
      - intros (r & H & _). discriminate H.
      - intros (_ & u & H & _). discriminate H. }
  destruct (verify password (user_hashedPassword u)) as [[|]|e] eqn:Hv;
    (split; [reflexivity|]); simpl.
  - split.
    + split; [intros _; split; [reflexivity|]; now exists u|].
      intros _. eexists. split; reflexivity.
    + intros r H. inversion H; subst. simpl. split; [eauto|reflexivity].
  - split.
    + split.
      * intros (r & H & Hs). inversion H; subst. discriminate Hs.
      * intros (_ & u' & H & Hv'). inversion H; subst. congruence.
    + intros r H. inversion H; subst. simpl. split; [discriminate|].
      intros [x Hx]. discriminate Hx.
  - split.
    + split.
      * intros (r & H & _). discriminate H.
      * intros (_ & u' & H & Hv'). inversion H; subst. congruence.
    + intros r H. discriminate H.
Qed.

(** X13: a login with an email that no user has raises the
    [HTTPException] with status 404, which the handler of [/user/login]
    catches like any exception; building the [Response] from a [dict]
    then raises in the [except] clause, so the handler raises and
    returns neither a 404 nor its status-500 response. *)
Theorem api_login_unknown_email env email password d :
  find_unique_error env = None ->
  email ∉ List.map user_email (users d) ->
  Login.user_login verify jwt_encode env email password d
  = (Throw (HTTPException 404
              "prisma.models.User with this email does not exist"), d)
  /\ UserServer.api_post_user_login http_exception_str verify jwt_encode
       env email password d
     = (Throw (Exception "'dict' object has no attribute 'encode'"), d).
Proof.
  intros Hf Hnew. apply find_email_none in Hnew.
  assert (H : Login.user_login verify jwt_encode env email password d
              = (Throw (HTTPException 404
                          "prisma.models.User with this email does not exist"),
                 d)).
  { rewrite login_paths, Hf, Hnew. reflexivity. }
  split; [exact H|].
  unfold UserServer.api_post_user_login, UserServer.handle. now rewrite H.
Qed.

Lemma update_paths env firstName lastName email preferences address d :
  UpdateProfile.update_user_profile env firstName lastName email
    preferences address d =
  match find_unique_error env with
  | Some e => (Throw (Exception e), d)
  | None =>
    match List.find (fun u => String.eqb (user_email u) email) (users d) with
    | None =>
        (Return (UpdateProfile.mkUpdateUserProfileResponse false
                   "User not found"), d)
    | Some u =>
      match first_profile (profiles_of d u) with
      | None =>
          (Return (UpdateProfile.mkUpdateUserProfileResponse false
                     "Profile not found for the user"), d)
      | Some p =>
        match profile_update_error env with
        | Some e => (Throw (Exception e), d)
        | None =>
            (Return (UpdateProfile.mkUpdateUserProfileResponse true
                       "User profile updated successfully"),
             mkDb (users d)
               (List.map (set_names (profile_id p) firstName lastName)
                  (profiles d)))
        end
      end
    end
  end.
Proof.
  unfold UpdateProfile.update_user_profile, User_find_unique_email_profiles,
    Profile_update, ubind, db_fails, get_db, put_db, uret, throw.
  destruct (find_unique_error env); [reflexivity|]. simpl.
  destruct (List.find _ _) as [u|]; [|reflexivity].
  destruct (first_profile (profiles_of d u)); [|reflexivity].
  destruct (profile_update_error env); reflexivity.
Qed.

Lemma get_paths env d :
  GetProfile.get_user_profile env d =
  match find_unique_error env with
  | Some e => (Throw (Exception e), d)
  | None =>
    match List.find
            (fun u => String.eqb (user_id u) GetProfile.current_user_id)
            (users d) with
    | None => (Throw (Exception "User profile not found."), d)
    | Some u =>
      match first_profile (profiles_of d u) with
      | None =>
          (Throw (Exception "User does not have an associated profile."), d)
      | Some p =>
          (Return (GetProfile.mkUserProfileResponse (user_id u)
                     (user_email u) (profile_firstName p)
                     (profile_lastName p) (user_role u) (user_createdAt u)
                     (user_updatedAt u)), d)
      end
    end
  end.
Proof.
  unfold GetProfile.get_user_profile, User_find_unique_id_profiles,
    ubind, db_fails, get_db, uret, throw.
  destruct (find_unique_error env); [reflexivity|]. simpl.
  destruct (List.find _ _) as [u|]; [|reflexivity].
  destruct (first_profile (profiles_of d u)); reflexivity.
Qed.

Lemma set_names_userId id fn ln p :
  profile_userId (set_names id fn ln p) = profile_userId p.
Proof. unfold set_names. now destruct (String.eqb _ _). Qed.

Lemma set_names_id id fn ln p :
  profile_id (set_names id fn ln p) = profile_id p.
Proof. unfold set_names. now destruct (String.eqb _ _). Qed.

Lemma set_names_cases id fn ln p :
  set_names id fn ln p = p
  \/ (profile_id p = id
      /\ set_names id fn ln p
         = mkProfile (profile_id p) fn ln (profile_userId p)).
Proof.
  unfold set_names.
  destruct (String.eqb_spec (profile_id p) id); [right|left]; auto.
Qed.

Lemma profiles_of_set_names id fn ln users_ (ps : list Profile) u :
  profiles_of (mkDb users_ (List.map (set_names id fn ln) ps)) u
  = List.map (set_names id fn ln) (profiles_of (mkDb users_ ps) u).
Proof.
  unfold profiles_of. simpl. induction ps as [|p ps IH]; [reflexivity|].
  simpl. rewrite set_names_userId, IH.
  now destruct (String.eqb (profile_userId p) (user_id u)).
Qed.

Lemma profiles_of_none d u :
  user_id u ∉ List.map profile_userId (profiles d) -> profiles_of d u = [].
Proof.
  unfold profiles_of. induction (profiles d) as [|p ps IH]; [reflexivity|].
  simpl. intros H. apply not_elem_of_cons in H as [Hne H].
  destruct (String.eqb_spec (profile_userId p) (user_id u)) as [Heq|];
    [now destruct Hne|now apply IH].
Qed.

(** X15: the registration does not undo the user when the creation of
    the profile fails.  The exception leaves the new user in the table
    without a profile; from then on the email counts as in use, and
    [update_user_profile] answers "Profile not found for the user". *)
Theorem registration_without_profile
    env env' email password first_name last_name role d hashed e :
  find_unique_error env = None ->
  email ∉ List.map user_email (users d) ->
  hash (salt env) password = Return hashed ->
  user_create_error env = None ->
  profile_create_error env = Some e ->
  new_user_id env ∉ List.map profile_userId (profiles d) ->
  find_unique_error env' = None ->
  let u := mkUser (new_user_id env) email hashed role (utcnow env)
             (utcnow env) in
  let d' := mkDb (users d ++ [u]) (profiles d) in
  Registration.user_registration hash env email password first_name
    last_name role d = (Throw (Exception e), d')
  /\ (forall password' first_name' last_name' role',
        Registration.user_registration hash env' email password'
          first_name' last_name' role' d'
        = (Return (Registration.mkUserRegistrationResponse "" "" role'
                     "Email already in use."), d'))
  /\ (forall firstName lastName preferences address,
        UpdateProfile.update_user_profile env' firstName lastName email
          preferences address d'
        = (Return (UpdateProfile.mkUpdateUserProfileResponse false
                     "Profile not found for the user"), d')).
Proof.
  intros Hf Hnew Hh Hc Hp Hfresh Hf' u d'.
  apply find_email_none in Hnew.
  assert (Hfind :
    List.find (fun u => String.eqb (user_email u) email) (users d')
    = Some u) by (now apply find_email_snoc).
  split; [|split].
  - rewrite registration_paths, Hf, Hnew, Hh. simpl. now rewrite Hc, Hp.
  - intros. rewrite registration_paths, Hf', Hfind. reflexivity.
  - intros. rewrite update_paths, Hf', Hfind.
    now rewrite (profiles_of_none d' u Hfresh).
Qed.

(** X16: what [update_user_profile] never does.  It changes no user;
    it adds and removes no profile; a profile is left as it was or gets
    the two names, keeping its id and its user; and the preferences and
    the address have no effect on the result or on the tables. *)
Theorem update_profile_frame
    env firstName lastName email preferences address d :
  let d' := snd (UpdateProfile.update_user_profile env firstName lastName
                   email preferences address d) in
  users d' = users d
  /\ length (profiles d') = length (profiles d)
  /\ (forall i p', profiles d' !! i = Some p' ->
        exists p, profiles d !! i = Some p
          /\ (p' = p
              \/ p' = mkProfile (profile_id p) firstName lastName
                        (profile_userId p)))
  /\ (forall preferences' address',
        UpdateProfile.update_user_profile env firstName lastName email
          preferences' address' d
        = UpdateProfile.update_user_profile env firstName lastName email
            preferences address d).
Proof.
  assert (Hsame : forall i p', profiles d !! i = Some p' ->
            exists p, profiles d !! i = Some p
              /\ (p' = p
                  \/ p' = mkProfile (profile_id p) firstName lastName
                            (profile_userId p))).
  { intros i p' H. exists p'. auto. }
  cbv zeta.
  split; [|split; [|split; [|intros; now rewrite !update_paths]]];
    rewrite update_paths.
  - destruct (find_unique_error env); [reflexivity|].
    destruct (List.find _ _) as [u|]; [|reflexivity].
    destruct (first_profile _); [|reflexivity].
    now destruct (profile_update_error env).
  - destruct (find_unique_error env); [reflexivity|].
    destruct (List.find _ _) as [u|]; [|reflexivity].
    destruct (first_profile _); [|reflexivity].
    destruct (profile_update_error env); [reflexivity|].
    simpl. apply List.length_map.
  - destruct (find_unique_error env); [exact Hsame|].
    destruct (List.find _ _) as [u|]; [|exact Hsame].
    destruct (first_profile _) as [p0|]; [|exact Hsame].
    destruct (profile_update_error env); [exact Hsame|].
    simpl. intros i p' H.
    change (List.map (set_names (profile_id p0) firstName lastName)
              (profiles d))
      with (set_names (profile_id p0) firstName lastName <$> profiles d)
      in H.
    rewrite list_lookup_fmap in H.
    destruct (profiles d !! i) as [p|]; [|discriminate H].
    simpl in H. inversion H; subst. exists p. split; [reflexivity|].
    destruct (set_names_cases (profile_id p0) firstName lastName p)
      as [->|[_ ->]]; auto.
Qed.

(** X17: an update that succeeds is read back.  When the user of the
    email is the user of the hard-coded id of [get_user_profile] and has
    a profile, [update_user_profile] answers success and
    [get_user_profile] then returns the two new names with the id, email,
    role and dates of the user. *)
Theorem update_then_get
    env env' firstName lastName email preferences address d u p :
  find_unique_error env = None ->
  profile_update_error env = None ->
  find_unique_error env' = None ->
  List.find (fun u => String.eqb (user_email u) email) (users d) = Some u ->
  List.find (fun u => String.eqb (user_id u) GetProfile.current_user_id)
    (users d) = Some u ->
  first_profile (profiles_of d u) = Some p ->
  let d' := snd (UpdateProfile.update_user_profile env firstName lastName
                   email preferences address d) in
  fst (UpdateProfile.update_user_profile env firstName lastName email
         preferences address d)
  = Return (UpdateProfile.mkUpdateUserProfileResponse true
              "User profile updated successfully")
  /\ GetProfile.get_user_profile env' d'
     = (Return (GetProfile.mkUserProfileResponse (user_id u) (user_email u)
                  firstName lastName (user_role u) (user_createdAt u)
                  (user_updatedAt u)), d').
Proof.
  intros Hf Hu Hf' Hemail Hid Hp d'. subst d'.
  rewrite update_paths, Hf, Hemail, Hp, Hu. simpl.
  split; [reflexivity|].
  rewrite get_paths, Hf'. simpl. rewrite Hid.
  rewrite profiles_of_set_names.
  replace (mkDb (users d) (profiles d)) with d by (now destruct d).
  destruct (profiles_of d u) as [|p0 ps]; [discriminate Hp|].
  simpl in Hp. inversion Hp; subst p0. simpl.
  unfold set_names at 1 2. rewrite String.eqb_refl. reflexivity.
Qed.

(** X18: [get_user_profile] looks up the user of its hard-coded id,
    whoever calls.  When no user has that id it raises "User profile not
    found." and changes nothing; the handler of [/user/profile] catches
    this, and building the [Response] from a [dict] then raises in the
    [except] clause, so the handler raises. *)
Theorem get_profile_needs_fixed_id env d :
  find_unique_error env = None ->
  GetProfile.current_user_id ∉ List.map user_id (users d) ->
  GetProfile.get_user_profile env d
  = (Throw (Exception "User profile not found."), d)
  /\ UserServer.api_get_get_user_profile http_exception_str env d
     = (Throw (Exception "'dict' object has no attribute 'encode'"), d).
Proof.
  intros Hf Hnone.
  assert (Hfind :
    List.find (fun u => String.eqb (user_id u) GetProfile.current_user_id)
      (users d) = None).
  { apply find_none_iff. intros u Hu. apply String.eqb_neq. intros Heq.
    apply Hnone. apply elem_of_map. now exists u. }
  assert (H : GetProfile.get_user_profile env d
              = (Throw (Exception "User profile not found."), d)).
  { rewrite get_paths, Hf, Hfind. reflexivity. }
  split; [exact H|].
  unfold UserServer.api_get_get_user_profile, UserServer.handle.
  now rewrite H.
Qed.

End Facts.
End UserFacts.

(** ** The further properties on the example data *)

Lemma success_means_booked_witness :
  exists st en sch,
    Iso.iso_seconds (req_startTime Ex.hour_A) = Ok st
    /\ Iso.iso_seconds (req_endTime Ex.hour_A) = Ok en
    /\ sch ∈ schedules (store Ex.one_slot)
    /\ covers_available (req_professionalId Ex.hour_A) st en sch
    /\ bookingId (booked Ex.hour_A
                    (mkAppointment "a1" "s1" "A" Ex.t1000 Ex.t1100))
       = new_appointment_id (healthy "a1")
    /\ appointments
         (store (marked_booked
                   (mkAppointment "a1" "s1" "A" Ex.t1000 Ex.t1100) "s1"
                   Ex.one_slot))
       = (appointments (store Ex.one_slot)
          ++ [mkAppointment
                (bookingId (booked Ex.hour_A
                              (mkAppointment "a1" "s1" "A" Ex.t1000
                                 Ex.t1100)))
                (sched_id sch) (req_clientId Ex.hour_A) st en])%list
    /\ (forall r',
          r' ∈ schedules
                 (store (marked_booked
                           (mkAppointment "a1" "s1" "A" Ex.t1000 Ex.t1100)
                           "s1" Ex.one_slot)) ->
          sched_id r' = sched_id sch -> sched_status r' = "Booked").
Proof.
  apply (success_means_booked Iso.iso_seconds (healthy "a1") Ex.hour_A
           Ex.one_slot
           (booked Ex.hour_A (mkAppointment "a1" "s1" "A" Ex.t1000 Ex.t1100))
           (marked_booked (mkAppointment "a1" "s1" "A" Ex.t1000 Ex.t1100)
              "s1" Ex.one_slot)).
  - reflexivity.
  - reflexivity.
Defined.

Lemma morning_booked_unavailable : unavailable "s1" (store Ex.morning).
Proof.
  intros r Hr Hid. apply elem_of_cons in Hr as [->|Hr]; [discriminate|].
  apply list_elem_of_singleton in Hr. subst r. discriminate Hid.
Qed.

Lemma unavailable_slot_untouched_witness :
  let '(_, _, w') :=
    interleave Iso.iso_seconds [true; false; true; false; true; false]
      (healthy "a2") (healthy "a3")
      (Pending Ex.next_hour_B) (Pending Ex.hour_A) Ex.morning in
  rows_of "s1" (store w') = rows_of "s1" (store Ex.morning)
  /\ appointments_of "s1" (store w')
     = appointments_of "s1" (store Ex.morning).
Proof.
  apply (unavailable_slot_untouched Iso.iso_seconds
           [true; false; true; false; true; false]
           (healthy "a2") (healthy "a3")
           (Pending Ex.next_hour_B) (Pending Ex.hour_A) Ex.morning "s1").
  - exact morning_booked_unavailable.
  - discriminate.
  - discriminate.
Defined.

Lemma unparsable_time_no_database_call_witness :
  book_appointment Iso.iso_seconds (healthy "a1")
    (Ex.request "A" "2024-01-01T10:00:00" "soon") Ex.one_slot
  = (Ok (failed (Ex.request "A" "2024-01-01T10:00:00" "soon")
           "Invalid isoformat string: 'soon'"), Ex.one_slot).
Proof.
  apply (unparsable_time_no_database_call Iso.iso_seconds (healthy "a1")
           (Ex.request "A" "2024-01-01T10:00:00" "soon") Ex.one_slot
           "Invalid isoformat string: 'soon'").
  right. exists Ex.t1000. split; reflexivity.
Defined.

Lemma registration_existing_email_witness :
  Registration.user_registration UEx.hash UEx.env2 "ann@example.com"
    "secret" "Ann" "Lee" UserDb.Client UEx.signed_in
  = (UserDb.Return
       (Registration.mkUserRegistrationResponse "" "" UserDb.Client
          "Email already in use."), UEx.signed_in).
Proof.
  apply (UserFacts.registration_existing_email UEx.hash UEx.env2
           "ann@example.com" "secret" "Ann" "Lee" UserDb.Client
           UEx.signed_in
           (UserDb.mkUser "your-authenticated-user-id" "ann@example.com"
              "salt$pw" UserDb.Client 1704103200%Z 1704103200%Z)).
  - reflexivity.
  - simpl. repeat constructor.
  - reflexivity.
Defined.

Lemma registration_keeps_emails_unique_witness :
  NoDup (List.map UserDb.user_email
           (UserDb.users
              (snd (Registration.user_registration UEx.hash UEx.env2
                      "bob@example.com" "secret" "Bob" "Ray" UserDb.Client
                      UEx.signed_in)))).
Proof.
  apply (UserFacts.registration_keeps_emails_unique UEx.hash UEx.env2
           "bob@example.com" "secret" "Bob" "Ray" UserDb.Client
           UEx.signed_in).
  simpl. apply NoDup_singleton.
Defined.

Lemma register_then_login_witness :
  let d' := snd (Registration.user_registration UEx.hash UEx.env1
                   "ann@example.com" "pw" "Ann" "Lee" UserDb.Client
                   UEx.empty) in
  Login.user_login UEx.verify UEx.jwt_encode UEx.env2 "ann@example.com"
    "pw" d'
  = (UserDb.Return
       (Login.mkUserLoginResponse true
          (Some (Login.create_access_token UEx.jwt_encode UEx.env2
                   (<["sub" := Login.ClaimStr "ann@example.com"]> ∅)))
          "Login successful"), d').
Proof.
  apply (UserFacts.register_then_login UEx.hash UEx.verify UEx.jwt_encode
           UEx.env1 UEx.env2 "ann@example.com" "pw" "Ann" "Lee"
           UserDb.Client UEx.empty "salt$pw").
  - reflexivity.
  - reflexivity.
  - simpl. apply not_elem_of_nil.
  - reflexivity.
  - reflexivity.
  - reflexivity.
Defined.

Lemma api_login_unknown_email_witness :
  Login.user_login UEx.verify UEx.jwt_encode UEx.env2 "bob@example.com"
    "pw" UEx.signed_in
  = (UserDb.Throw
       (UserDb.HTTPException 404
          "prisma.models.User with this email does not exist"),
     UEx.signed_in)
  /\ UserServer.api_post_user_login UEx.http_exception_str UEx.verify
       UEx.jwt_encode UEx.env2 "bob@example.com" "pw" UEx.signed_in
     = (UserDb.Throw
          (UserDb.Exception "'dict' object has no attribute 'encode'"),
        UEx.signed_in).
Proof.
  apply (UserFacts.api_login_unknown_email UEx.verify UEx.jwt_encode
           UEx.http_exception_str UEx.env2 "bob@example.com" "pw"
           UEx.signed_in).
  - reflexivity.
  - simpl. intros H. apply list_elem_of_singleton in H. discriminate H.
Defined.

Lemma registration_without_profile_witness :
  Registration.user_registration UEx.hash UEx.no_profile "ann@example.com"
    "pw" "Ann" "Lee" UserDb.Client UEx.empty
  = (UserDb.Throw (UserDb.Exception "connection lost"),
     UserDb.mkDb
       [UserDb.mkUser "u1" "ann@example.com" "salt$pw" UserDb.Client
          1704103200%Z 1704103200%Z] []).
Proof.
  apply (UserFacts.registration_without_profile UEx.hash UEx.no_profile
           UEx.env2 "ann@example.com" "pw" "Ann" "Lee" UserDb.Client
           UEx.empty "salt$pw" "connection lost").
  - reflexivity.
  - simpl. apply not_elem_of_nil.
  - reflexivity.
  - reflexivity.
  - reflexivity.
  - simpl. apply not_elem_of_nil.
  - reflexivity.
Defined.

Lemma update_then_get_witness :
  let d' := snd (UpdateProfile.update_user_profile UEx.env1 "Anna" "Li"
                   "ann@example.com"
                   (UpdateProfile.mkPreferences true false)
                   (UpdateProfile.mkAddress "1 Main St" "Town" "ST" "00000"
                      "Land")
                   UEx.signed_in) in
  GetProfile.get_user_profile UEx.env2 d'
  = (UserDb.Return
       (GetProfile.mkUserProfileResponse "your-authenticated-user-id"
          "ann@example.com" "Anna" "Li" UserDb.Client 1704103200%Z
          1704103200%Z), d').
Proof.
  apply (UserFacts.update_then_get UEx.env1 UEx.env2 "Anna" "Li"
           "ann@example.com" (UpdateProfile.mkPreferences true false)
           (UpdateProfile.mkAddress "1 Main St" "Town" "ST" "00000" "Land")
           UEx.signed_in
           (UserDb.mkUser "your-authenticated-user-id" "ann@example.com"
              "salt$pw" UserDb.Client 1704103200%Z 1704103200%Z)
           (UserDb.mkProfile "p1" "Ann" "Lee" "your-authenticated-user-id")).
  - reflexivity.
  - reflexivity.
  - reflexivity.
  - reflexivity.
  - reflexivity.
  - reflexivity.
Defined.

Lemma get_profile_needs_fixed_id_witness :
  let d' := snd (Registration.user_registration UEx.hash UEx.env1
                   "ann@example.com" "pw" "Ann" "Lee" UserDb.Client
                   UEx.empty) in
  GetProfile.get_user_profile UEx.env2 d'
  = (UserDb.Throw (UserDb.Exception "User profile not found."), d')
  /\ UserServer.api_get_get_user_profile UEx.http_exception_str UEx.env2 d'
     = (UserDb.Throw
          (UserDb.Exception "'dict' object has no attribute 'encode'"), d').
Proof.
  apply (UserFacts.get_profile_needs_fixed_id UEx.http_exception_str
           UEx.env2).
  - reflexivity.
  - simpl. intros H. apply list_elem_of_singleton in H. discriminate H.
Defined.
